(** * Document chatbot: chunker, vector store and answer generator

    A shallow embedding of [document_processor.py], [vector_store.py] and
    [chat_handler.py], with the properties of the specification proved
    (or refuted) against it.

    Python strings are sequences of Unicode code points; integers are
    unbounded.  Exceptions are modelled by [option]; the external
    services (embedding model, generative model, nearest-neighbour
    library, file system) are explicit parameters or explicit state. *)

From stdpp Require Import base gmap strings list.
From Stdlib Require Import ZArith QArith Lia Lqa List Ascii String Bool Sorted.
From Stdlib Require Import DecimalString.
Import ListNotations.

Local Open Scope Z_scope.

(* ===================================================================== *)
(** * Python strings *)
(* ===================================================================== *)

Module Py.

(** A character is a code point, a [str] a sequence of them. *)
Definition char := N.
Definition str := list char.

(** A literal of the source, read as code points. *)
Definition lit (s : string) : str :=
  List.map N_of_ascii (list_ascii_of_string s).

Definition len {A} (l : list A) : Z := Z.of_nat (List.length l).

(** [str.isspace] on one character, which is also the class [\s] of
    [re] on [str] patterns (CPython's [_PyUnicode_IsWhitespace]). *)
Definition is_space (c : char) : bool :=
  (((9 <=? c) && (c <=? 13)) || ((28 <=? c) && (c <=? 32))
   || (c =? 133) || (c =? 160) || (c =? 5760)
   || ((8192 <=? c) && (c <=? 8202))
   || (c =? 8232) || (c =? 8233) || (c =? 8239) || (c =? 8287)
   || (c =? 12288))%N.

Definition NL : char := 10%N.
Definition SP : char := 32%N.
Definition DOT : char := 46%N.
Definition SLASH : char := 47%N.

Definition is_newline (c : char) : bool := (c =? NL)%N.

(** [re.sub(cls+, rep, t)] for a character class [cls] and a one-character
    replacement: every maximal run of [cls] becomes one [rep].  The
    replacement is emitted at the last character of the run. *)
Fixpoint re_sub_runs (cls : char -> bool) (rep : char) (t : str) : str :=
  match t with
  | [] => []
  | c :: r =>
      if cls c then
        match r with
        | [] => [rep]
        | c' :: _ => if cls c' then re_sub_runs cls rep r
                     else rep :: re_sub_runs cls rep r
        end
      else c :: re_sub_runs cls rep r
  end.

(** [re.sub(cls, "", t)] for a character class: delete its members. *)
Definition re_sub_delete (cls : char -> bool) (t : str) : str :=
  List.filter (fun c => negb (cls c)) t.

(** [str.lstrip()], [str.rstrip()], [str.strip()]. *)
Fixpoint lstrip (t : str) : str :=
  match t with
  | [] => []
  | c :: r => if is_space c then lstrip r else t
  end.

Fixpoint rstrip (t : str) : str :=
  match t with
  | [] => []
  | c :: r =>
      match rstrip r with
      | [] => if is_space c then [] else [c]
      | r' => c :: r'
      end
  end.

Definition strip (t : str) : str := rstrip (lstrip t).

(** [t.rstrip(chars)] for a set of characters. *)
Fixpoint rstrip_chars (chars : char -> bool) (t : str) : str :=
  match t with
  | [] => []
  | c :: r =>
      match rstrip_chars chars r with
      | [] => if chars c then [] else [c]
      | r' => c :: r'
      end
  end.

(** Normalisation of a slice bound against a length: a negative bound
    counts from the end, and everything is clamped to [0, n]. *)
Definition clamp (n i : Z) : Z :=
  if i <? 0 then Z.max 0 (i + n) else Z.min i n.

(** [t[a:b]]. *)
Definition slice {A} (t : list A) (a b : Z) : list A :=
  let a' := clamp (len t) a in
  let b' := clamp (len t) b in
  firstn (Z.to_nat (b' - a')) (skipn (Z.to_nat a') t).

(** Highest position of [c] in [l], positions counted from [i]. *)
Fixpoint rfind_from (c : char) (l : str) (i : Z) : option Z :=
  match l with
  | [] => None
  | x :: r =>
      match rfind_from c r (i + 1) with
      | Some k => Some k
      | None => if (x =? c)%N then Some i else None
      end
  end.

(** [t.rfind(c, a, b)] for a one-character needle: the highest index in
    the slice [t[a:b]] holding [c], or [-1]. *)
Definition rfind (t : str) (c : char) (a b : Z) : Z :=
  match rfind_from c (slice t a b) (clamp (len t) a) with
  | Some k => k
  | None => -1
  end.

(** Truth value of a string: non-empty. *)
Definition truthy {A} (t : list A) : bool :=
  match t with [] => false | _ => true end.

End Py.

(* ===================================================================== *)
(** * document_processor.py *)
(* ===================================================================== *)

Module DocumentProcessor.
Import Py.

Section Chunker.

(** [str.isalnum] above ASCII is a table of the Unicode database, taken
    as a parameter. *)
Variable unicode_alnum : char -> bool.

(** The class [\w] of [re]: alphanumeric or underscore. *)
Definition is_word (c : char) : bool :=
  if (c <? 128)%N then
    (((48 <=? c) && (c <=? 57)) || ((65 <=? c) && (c <=? 90))
     || ((97 <=? c) && (c <=? 122)) || (c =? 95))%N
  else unicode_alnum c.

(** The punctuation [.,!?;:()-] of the allow-list. *)
Definition is_basic_punct (c : char) : bool :=
  ((c =? 46) || (c =? 44) || (c =? 33) || (c =? 63) || (c =? 59)
   || (c =? 58) || (c =? 40) || (c =? 41) || (c =? 45))%N.

(** The class [\w\s\.,!?;:()\-]; the pattern deletes its complement. *)
Definition allowed (c : char) : bool :=
  is_word c || is_space c || is_basic_punct c.

Definition clean_text (text : str) : str :=
  if negb (truthy text) then []
  else
    let text := re_sub_runs is_newline NL text in
    let text := re_sub_runs is_space SP text in
    let text := re_sub_delete (fun c => negb (allowed c)) text in
    strip text.

(** The end of the window that starts at [start]: the raw cut
    [start + chunk_size], moved back to a sentence, paragraph or word
    boundary past the middle of the window when the window does not reach
    the end of the text. *)
Definition window_end (text : str) (chunk_size start : Z) : Z :=
  let end_ := start + chunk_size in
  if end_ <? len text then
    let sentence_end := rfind text DOT start end_ in
    if sentence_end >? start + chunk_size / 2 then sentence_end + 1
    else
      let paragraph_end := rfind text NL start end_ in
      if paragraph_end >? start + chunk_size / 2 then paragraph_end + 1
      else
        let word_end := rfind text SP start end_ in
        if word_end >? start + chunk_size / 2 then word_end
        else end_
  else end_.

(** One pass through the body of the [while]: the chunk of the window is
    appended when it is not empty, and [start] moves to [end - overlap]. *)
Definition chunk_body (text : str) (chunk_size overlap start : Z)
    (chunks : list str) : Z * list str :=
  let end_ := window_end text chunk_size start in
  let chunk := strip (slice text start end_) in
  let chunks := if truthy chunk then chunks ++ [chunk] else chunks in
  (end_ - overlap, chunks).

(** The [while start < len(text)] loop with its [break].  The loop need
    not terminate for every [chunk_size] and [overlap], so it runs on
    fuel; the result is the state at the exit, [start] and [chunks]. *)
Fixpoint chunk_loop (fuel : nat) (text : str) (chunk_size overlap start : Z)
    (chunks : list str) : option (Z * list str) :=
  match fuel with
  | O => None
  | S fuel =>
      if start <? len text then
        let '(start', chunks') :=
          chunk_body text chunk_size overlap start chunks in
        if start' >=? len text then Some (start', chunks')
        else chunk_loop fuel text chunk_size overlap start' chunks'
      else Some (start, chunks)
  end.

Definition chunk_text (fuel : nat) (text : str) (chunk_size overlap : Z)
    : option (list str) :=
  if negb (truthy text) then Some []
  else
    let text := clean_text text in
    if len text <=? chunk_size then Some [text]
    else
      match chunk_loop fuel text chunk_size overlap 0 [] with
      | Some (_, chunks) => Some chunks
      | None => None
      end.

End Chunker.


(** ** The reconstruction and the coverage the specification speaks of *)


(** Position [p] of [t] lies inside an occurrence of one of the chunks. *)
Definition covered (t : str) (chunks : list str) (p : nat) : Prop :=
  exists pre c post,
    t = pre ++ c ++ post /\ In c chunks /\
    (List.length pre <= p < List.length pre + List.length c)%nat.

End DocumentProcessor.

(* ===================================================================== *)
(** * vector_store.py *)
(* ===================================================================== *)

Module VectorStore.
Import Py.

(** ** Values the store handles *)

(** A metadata object is a [dict] from keys to integers or strings. *)
Inductive value : Type :=
| VInt (n : Z)
| VStr (s : str).

Abbreviation dict := (gmap str value).

(** An embedding is a list of floats, read here as rationals; a
    two-dimensional array is the list of its rows. *)
Definition vec := list Q.
Definition ndarray := list vec.

(** [np.array(rows, dtype=np.float32)]: rows of unequal length raise. *)
Definition np_array (rows : list vec) : option ndarray :=
  match rows with
  | [] => Some []
  | r :: rest =>
      if forallb (fun r' => len r' =? len r) rest then Some rows else None
  end.

(** [a.size]: the number of entries. *)
Definition size (a : ndarray) : Z :=
  match a with
  | [] => 0
  | r :: _ => len a * len r
  end.

(** [l[i]]: a negative index counts from the end; out of range raises. *)
Definition getitem {A} (l : list A) (i : Z) : option A :=
  if i <? 0 then
    if 0 <=? i + len l then l !! Z.to_nat (i + len l) else None
  else l !! Z.to_nat i.

(** [range(start, stop, step)] for a positive step. *)
Definition range (start stop step : Z) : list Z :=
  List.map (fun j => start + step * Z.of_nat j)
           (List.seq 0 (Z.to_nat ((stop - start + step - 1) / step))).

(** ** The nearest-neighbour library *)

(** What the store uses of faiss: an index of a given dimension, its
    [ntotal], [add], and [search] for one query row, which answers the
    first row of the distance array and of the index array.  [None] is a
    raised exception. *)
Class Faiss : Type := {
  Index : Type;
  IndexFlatL2 : Z -> Index;
  ntotal : Index -> Z;
  index_add : Index -> ndarray -> option Index;
  index_search : Index -> ndarray -> Z -> option (list Q * list Z)
}.

(** The contract of the library, as far as the store relies on it: a new
    index is empty, [add] appends one vector per row, and [search] for [k]
    neighbours, [k] no more than [ntotal], answers [k] distances and [k]
    offsets, the distances non-negative and ascending. *)
Class FaissLaws (F : Faiss) : Prop := {
  ntotal_nonneg : forall ix, 0 <= ntotal ix;
  ntotal_IndexFlatL2 : forall d, ntotal (IndexFlatL2 d) = 0;
  ntotal_add : forall ix x ix',
      index_add ix x = Some ix' -> ntotal ix' = ntotal ix + len x;
  search_shape : forall ix q k D I,
      k <= ntotal ix -> index_search ix q k = Some (D, I) ->
      len D = k /\ len I = k;
  search_ascending : forall ix q k D I,
      k <= ntotal ix -> index_search ix q k = Some (D, I) ->
      StronglySorted Qle D;
  search_nonneg : forall ix q k D I,
      k <= ntotal ix -> index_search ix q k = Some (D, I) ->
      Forall (fun d => (0 <= d)%Q) D
}.

(** ** Calls that may raise and that change the outside world *)

Definition M (W A : Type) : Type := W -> option A * W.

Definition ret {W A} (a : A) : M W A := fun w => (Some a, w).

Definition bind {W A B} (m : M W A) (f : A -> M W B) : M W B :=
  fun w =>
    match m w with
    | (Some a, w') => f a w'
    | (None, w') => (None, w')
    end.

Notation "'do' x <- m ; k" := (bind m (fun x => k))
  (at level 10, x name, m at level 100, k at level 200).

Inductive task_type : Type := retrieval_document | retrieval_query.

Section Store.

Context {F : Faiss}.

(** The state of the embedding service and the call
    [genai.embed_content(model, content, task_type)['embedding']]. *)
Context {World : Type}.
Variable embed_content : task_type -> str -> M World vec.

Record VectorStore : Type := {
  index : Index;
  texts : list str;
  metadata : list dict;
  dimension : Z
}.

(** [VectorStore(api_key)]. *)
Definition init : VectorStore :=
  {| index := IndexFlatL2 768; texts := []; metadata := []; dimension := 768 |}.

Definition batch_size : Z := 100.

(** The inner loop of [_get_embeddings]: one call per text of the batch. *)
Fixpoint embed_batch (batch : list str) (batch_embeddings : list vec)
    : M World (list vec) :=
  match batch with
  | [] => ret batch_embeddings
  | text :: rest =>
      do result <- embed_content retrieval_document text;
      embed_batch rest (batch_embeddings ++ [result])
  end.

(** The outer loop, over the start offsets of the batches. *)
Fixpoint embed_batches (starts : list Z) (texts : list str)
    (embeddings : list vec) : M World (list vec) :=
  match starts with
  | [] => ret embeddings
  | i :: starts' =>
      do batch_embeddings <- embed_batch (slice texts i (i + batch_size)) [];
      embed_batches starts' texts (embeddings ++ batch_embeddings)
  end.

(** The body of the [try] of [_get_embeddings]. *)
Definition get_embeddings_try (texts : list str) : M World ndarray :=
  do embeddings <- embed_batches (range 0 (len texts) batch_size) texts [];
  fun w => (np_array embeddings, w).

(** [_get_embeddings]: any exception gives the empty array. *)
Definition _get_embeddings (texts : list str) (w : World)
    : ndarray * World :=
  match get_embeddings_try texts w with
  | (Some a, w') => (a, w')
  | (None, w') => ([], w')
  end.

(** The metadata [add_documents] makes up when none is given. *)
Definition default_metadata (s : VectorStore) (n : nat) : list dict :=
  List.map (fun i => {[ lit "chunk_id" := VInt (Z.of_nat i + len (metadata s)) ]})
           (List.seq 0 n).

Definition add_documents (s : VectorStore) (texts_ : list str)
    (metadata_ : option (list dict)) (w : World)
    : bool * VectorStore * World :=
  if negb (truthy texts_) then (false, s, w)
  else
    let '(embeddings, w) := _get_embeddings texts_ w in
    if size embeddings =? 0 then (false, s, w)
    else
      match index_add (index s) embeddings with
      | None => (false, s, w)
      | Some index' =>
          let metadata' :=
            match metadata_ with
            | Some ((_ :: _) as m) => metadata s ++ m
            | _ => metadata s ++ default_metadata s (List.length texts_)
            end in
          (true,
           {| index := index'; texts := texts s ++ texts_;
              metadata := metadata'; dimension := dimension s |},
           w)
      end.

(** One search result: text, similarity, metadata. *)
Definition result : Type := str * Q * dict.

Definition similarity_of (r : result) : Q := snd (fst r).

(** Descending order of similarity. *)
Definition by_similarity_desc (a b : result) : Prop :=
  (similarity_of b <= similarity_of a)%Q.

(** The loop of [search] over [zip(distances[0], indices[0])].  Indexing
    raises out of range, hence the [option].  The similarity is computed
    on rationals; the distances of the library are not negative, so the
    divisor is not zero. *)
Fixpoint collect_results (s : VectorStore) (pairs : list (Q * Z))
    (results : list result) : option (list result) :=
  match pairs with
  | [] => Some results
  | (distance, idx) :: rest =>
      if (0 <=? idx) && (idx <? len (texts s)) then
        let similarity := (1 / (1 + distance))%Q in
        match getitem (texts s) idx with
        | None => None
        | Some text =>
            let meta :=
              if idx <? len (metadata s) then getitem (metadata s) idx
              else Some ∅ in
            match meta with
            | None => None
            | Some m =>
                collect_results s rest (results ++ [(text, similarity, m)])
            end
        end
      else collect_results s rest results
  end.

Definition search (s : VectorStore) (query : str) (k : Z) (w : World)
    : list result * World :=
  if ntotal (index s) =? 0 then ([], w)
  else
    match embed_content retrieval_query query w with
    | (None, w') => ([], w')
    | (Some embedding, w') =>
        let query_embedding := [embedding] in
        match index_search (index s) query_embedding
                           (Z.min k (ntotal (index s))) with
        | None => ([], w')
        | Some (distances, indices) =>
            match collect_results s (List.combine distances indices) [] with
            | Some results => (results, w')
            | None => ([], w')
            end
        end
    end.

Definition clear (s : VectorStore) : VectorStore :=
  {| index := IndexFlatL2 (dimension s); texts := []; metadata := [];
     dimension := dimension s |}.

Record Stats : Type := {
  total_chunks : Z;
  index_size : Z;
  stats_dimension : Z
}.

Definition get_stats (s : VectorStore) : Stats :=
  {| total_chunks := len (texts s);
     index_size := ntotal (index s);
     stats_dimension := dimension s |}.

(** ** Persistence *)

(** What a file holds: an index written by [faiss.write_index], or the
    bundle written by [pickle.dump]. *)
Inductive file : Type :=
| FaissFile (ix : Index)
| PickleFile (texts_ : list str) (metadata_ : list dict) (dimension_ : Z).

(** [os.path.dirname]. *)
Definition dirname (p : str) : str :=
  let i := rfind p SLASH 0 (len p) + 1 in
  let head := slice p 0 i in
  if truthy head && negb (forallb (fun c => (c =? SLASH)%N) head)
  then rstrip_chars (fun c => (c =? SLASH)%N) head
  else head.

(** [os.makedirs(d, exist_ok=True)].  Directories are not tracked; of the
    errors of the call only the one on the empty path is modelled. *)
Definition makedirs (d : str) (fs : gmap str file) : option (gmap str file) :=
  if truthy d then Some fs else None.

(** [os.path.exists]. *)
Definition exists_ (p : str) (fs : gmap str file) : bool :=
  match fs !! p with Some _ => true | None => false end.

(** [faiss.read_index]: raises on a file that holds no index. *)
Definition read_index (p : str) (fs : gmap str file) : option Index :=
  match fs !! p with
  | Some (FaissFile ix) => Some ix
  | _ => None
  end.

Definition save (s : VectorStore) (filepath : str) (fs : gmap str file)
    : bool * gmap str file :=
  match makedirs (dirname filepath) fs with
  | None => (false, fs)
  | Some fs =>
      let fs := <[filepath ++ lit ".faiss" := FaissFile (index s)]> fs in
      let fs :=
        <[filepath ++ lit ".pkl" :=
            PickleFile (texts s) (metadata s) (dimension s)]> fs in
      (true, fs)
  end.

(** [load] assigns [self.index] before it reads the bundle, so a failure
    of the second read leaves the new index with the old arrays. *)
Definition load (s : VectorStore) (filepath : str) (fs : gmap str file)
    : bool * VectorStore :=
  if negb (exists_ (filepath ++ lit ".faiss") fs)
     || negb (exists_ (filepath ++ lit ".pkl") fs)
  then (false, s)
  else
    match read_index (filepath ++ lit ".faiss") fs with
    | None => (false, s)
    | Some ix =>
        let s := {| index := ix; texts := texts s; metadata := metadata s;
                    dimension := dimension s |} in
        match fs !! (filepath ++ lit ".pkl") with
        | Some (PickleFile t m d) =>
            (true, {| index := index s; texts := t; metadata := m;
                      dimension := d |})
        | _ => (false, s)
        end
    end.

(** ** Notions the properties are stated with *)

(** One call of the service per text, in order, stopping at the first
    exception. *)
Fixpoint embed_all (texts_ : list str) : M World (list vec) :=
  match texts_ with
  | [] => ret []
  | text :: rest =>
      do v <- embed_content retrieval_document text;
      do vs <- embed_all rest;
      ret (v :: vs)
  end.

(** Embedding [texts_] from the state [w] of the service, some call
    raises: the calls before it succeed and the call for [text] does not. *)
Definition call_raises (texts_ : list str) (w : World) : Prop :=
  exists before text after vs w1,
    texts_ = before ++ text :: after /\
    embed_all before w = (Some vs, w1) /\
    fst (embed_content retrieval_document text w1) = None.

(** What one pair (distance, offset) of the library contributes to the
    results of [search]: nothing when the offset is outside [texts], else
    the text at the offset with the metadata at the offset, or with the
    empty metadata when the offset is past the end of [metadata]. *)
Definition joined (s : VectorStore) (p : Q * Z) : list result :=
  let '(distance, idx) := p in
  if 0 <=? idx then
    match texts s !! Z.to_nat idx with
    | Some text =>
        [(text, (1 / (1 + distance))%Q,
          default ∅ (metadata s !! Z.to_nat idx))]
    | None => []
    end
  else [].

(** The three arrays have the same length. *)
Definition consistent (s : VectorStore) : Prop :=
  ntotal (index s) = len (texts s) /\ len (texts s) = len (metadata s).

(** The operations of the store that the invariant is about. *)
Inductive op : Type :=
| OpAddDocuments (texts_ : list str) (metadata_ : option (list dict))
| OpSearch (query : str) (k : Z)
| OpClear.

(** Metadata is omitted or has one entry per text. *)
Definition op_ok (o : op) : Prop :=
  match o with
  | OpAddDocuments t (Some m) => List.length m = List.length t
  | _ => True
  end.

Definition run (o : op) (s : VectorStore) (w : World) : VectorStore * World :=
  match o with
  | OpAddDocuments t m =>
      let '(_, s', w') := add_documents s t m w in (s', w')
  | OpSearch q k => (s, snd (search s q k w))
  | OpClear => (clear s, w)
  end.

Fixpoint run_all (ops : list op) (s : VectorStore) (w : World)
    : VectorStore * World :=
  match ops with
  | [] => (s, w)
  | o :: ops' => let '(s', w') := run o s w in run_all ops' s' w'
  end.

End Store.

End VectorStore.

(* ===================================================================== *)
(** * A flat L2 index *)
(* ===================================================================== *)

(** An instance of the library interface: vectors kept in a list, search
    by exhaustive comparison of squared L2 distances.  It shows that the
    contract [FaissLaws] can be met and gives the properties of the store
    something to run on. *)
Module FlatL2.
Import Py VectorStore.

Record flat : Type := { flat_d : Z; flat_xb : list vec }.

Definition l2_sqr (x y : vec) : Q :=
  List.fold_right Qplus 0%Q
    (List.map (fun xy => (fst xy - snd xy) * (fst xy - snd xy))%Q
              (List.combine x y)).

(** The order the search sorts by. *)
Definition by_distance (a b : Q * Z) : Prop := (fst a <= fst b)%Q.

Fixpoint insert_by_distance (e : Q * Z) (l : list (Q * Z)) : list (Q * Z) :=
  match l with
  | [] => [e]
  | h :: t =>
      if Qle_bool (fst e) (fst h) then e :: l
      else h :: insert_by_distance e t
  end.

Definition sort_by_distance (l : list (Q * Z)) : list (Q * Z) :=
  List.fold_right insert_by_distance [] l.

Definition flat_add (ix : flat) (x : ndarray) : option flat :=
  if forallb (fun r => len r =? flat_d ix) x
  then Some {| flat_d := flat_d ix; flat_xb := flat_xb ix ++ x |}
  else None.

(** The distance reported for a missing neighbour. *)
Definition FLT_MAX : Q := (2 ^ 128)%Q.

Definition flat_search (ix : flat) (q : ndarray) (k : Z)
    : option (list Q * list Z) :=
  match q with
  | [x] =>
      if (0 <? k) && (len x =? flat_d ix) then
        let scored :=
          List.combine (List.map (l2_sqr x) (flat_xb ix))
                       (List.map Z.of_nat
                                 (List.seq 0 (List.length (flat_xb ix)))) in
        let top := firstn (Z.to_nat k) (sort_by_distance scored) in
        let all :=
          top ++ List.repeat (FLT_MAX, -1)
                             (Z.to_nat k - List.length top) in
        Some (List.map fst all, List.map snd all)
      else None
  | _ => None
  end.

Definition flat_faiss : Faiss :=
  {| Index := flat;
     IndexFlatL2 := fun d => {| flat_d := d; flat_xb := [] |};
     ntotal := fun ix => len (flat_xb ix);
     index_add := flat_add;
     index_search := flat_search |}.

End FlatL2.

(* ===================================================================== *)
(** * chat_handler.py *)
(* ===================================================================== *)

Module ChatHandler.
Import Py VectorStore.

(** [sep.join(parts)]. *)
Definition join (sep : str) (parts : list str) : str :=
  match parts with
  | [] => []
  | p :: rest => p ++ List.concat (List.map (fun q => sep ++ q) rest)
  end.

(** [str(n)] for an integer. *)
Definition str_of_Z (z : Z) : str :=
  lit (NilZero.string_of_int (Z.to_int z)).

Definition str_of_value (v : value) : str :=
  match v with
  | VInt n => str_of_Z n
  | VStr s => s
  end.

Definition value_truthy (v : value) : bool :=
  match v with
  | VInt n => negb (n =? 0)
  | VStr s => truthy s
  end.

Section Chat.

Context {World : Type}.

(** [f"{score:.2f}"], the formatting of a float. *)
Variable format_2f : Q -> str.

(** [self.model.generate_content(prompt).text]; [None] is a raised
    exception. *)
Variable generate_content : str -> M World str.

Definition chunk_info (i : Z) (score : Q) (metadata : gmap str value) : str :=
  let chunk_info :=
    lit "**Document Excerpt " ++ str_of_Z (i + 1)
    ++ lit "** (Relevance: " ++ format_2f score ++ lit ")" in
  match metadata !! lit "source" with
  | Some v =>
      if value_truthy v
      then chunk_info ++ lit " - Source: " ++ str_of_value v
      else chunk_info
  | None => chunk_info
  end.

(** The loop over [enumerate(...)], [i] the running index. *)
Fixpoint context_parts (i : Z) (chunks : list result) : list str :=
  match chunks with
  | [] => []
  | (text, score, metadata) :: rest =>
      (chunk_info i score metadata ++ [NL] ++ text)
        :: context_parts (i + 1) rest
  end.

Definition _prepare_context (context_chunks : list result) : str :=
  if negb (truthy context_chunks) then []
  else join [NL; NL] (context_parts 0 (slice context_chunks 0 3)).

Definition context_prompt (query context : str) : str :=
  lit "You are an expert document analysis assistant. Your task is to answer questions based on the provided document excerpts.

**DOCUMENT CONTEXT:**
" ++ context ++ lit "

**USER QUESTION:** " ++ query ++ lit "

**INSTRUCTIONS:**
1. Answer based primarily on the provided document context
2. Be specific and cite relevant information from the excerpts
3. If the context doesn't fully address the question, clearly state what information is missing
4. Use a clear, professional tone
5. Provide direct quotes when they support your answer
6. If you need to make inferences, clearly indicate this

**RESPONSE:**".

Definition no_context_prompt (query : str) : str :=
  lit "You are a helpful assistant. The user has asked a question about documents, but no relevant document context was found in the uploaded files.

**USER QUESTION:** " ++ query ++ lit "

Please provide a helpful response while clearly explaining that you don't have specific document context to reference. You may provide general information about the topic if appropriate, but emphasize the limitation.

**RESPONSE:**".

Definition _create_prompt (query context : str) : str :=
  if truthy context then context_prompt query context
  else no_context_prompt query.

Definition generate_response (query : str) (context_chunks : list result)
    (w : World) : str * World :=
  let context := _prepare_context context_chunks in
  let prompt := _create_prompt query context in
  match generate_content prompt w with
  | (Some text, w') =>
      if truthy text then (text, w')
      else (lit "I apologize, but I couldn't generate a response. Please try rephrasing your question.", w')
  | (None, w') =>
      (lit "I encountered an error while generating a response. Please try again.", w')
  end.

End Chat.

End ChatHandler.

(* ===================================================================== *)
(** * A small instance to run the store on *)
(* ===================================================================== *)

Module Demo.
Import Py VectorStore FlatL2.

(** An embedding service without state that maps a text to a vector of
    768 entries, the first the length of the text; it raises on the empty
    text. *)
Definition embedding_of (text : str) : vec :=
  inject_Z (len text) :: List.repeat 0%Q 767.

Definition service : task_type -> str -> M unit vec :=
  fun _ text w =>
    if truthy text then (Some (embedding_of text), w) else (None, w).

(** A service for an index of dimension 2. *)
Definition service2 : task_type -> str -> M unit vec :=
  fun _ text w => (Some [inject_Z (len text); 0%Q], w).

Definition cat : str := lit "The cat sat.".
Definition dog : str := lit "The dog ran away.".

Definition source (name : str) : gmap str value :=
  {[ lit "source" := VStr name ]}.

(** The store after [add_documents([cat, dog], metadata)]. *)
Definition store : @VectorStore flat_faiss :=
  snd (fst (add_documents (F := flat_faiss) service init [cat; dog]
              (Some [source (lit "a.txt"); source (lit "a.txt")]) tt)).

(** A store whose arrays are out of step: two vectors, one text, no
    metadata. *)
Definition skewed : @VectorStore flat_faiss :=
  {| index := ({| flat_d := 2; flat_xb := [[1%Q; 0%Q]; [5%Q; 0%Q]] |}
                : @Index flat_faiss);
     texts := [cat]; metadata := []; dimension := 2 |}.

Definition script : list op :=
  [ OpAddDocuments [cat; dog] None;
    OpSearch (lit "cat") 1;
    OpAddDocuments [dog] (Some [source (lit "b.txt")]);
    OpClear;
    OpAddDocuments [cat] None ].

End Demo.

(* ===================================================================== *)
(** * More of Python's strings *)
(* ===================================================================== *)

Module PyText.
Import Py.

(** [t.split(sep)] for a one-character separator: the pieces between the
    separators, empty pieces included; never the empty list. *)
Fixpoint split (sep : char) (t : str) : list str :=
  match t with
  | [] => [[]]
  | c :: r =>
      if (c =? sep)%N then [] :: split sep r
      else
        match split sep r with
        | h :: tl => (c :: h) :: tl
        | [] => [[c]]
        end
  end.

(** [t.startswith(prefix)] and [t.endswith(suffix)]. *)
Fixpoint startswith (t prefix : str) : bool :=
  match prefix with
  | [] => true
  | x :: prefix' =>
      match t with
      | [] => false
      | y :: t' => (x =? y)%N && startswith t' prefix'
      end
  end.

Definition endswith (t suffix : str) : bool :=
  startswith (List.rev t) (List.rev suffix).

(** [str.lower] on ASCII text. *)
Definition ascii_lower (t : str) : str :=
  List.map (fun c => if ((65 <=? c) && (c <=? 90))%N then (c + 32)%N else c) t.

(** [bytes.decode('latin-1')]: every byte is the code point of its value. *)
Definition decode_latin1 (b : list Byte.byte) : str :=
  List.map Byte.to_N b.

End PyText.

(* ===================================================================== *)
(** * document_processor.py: text extraction *)
(* ===================================================================== *)

Module Extractors.
Import Py PyText VectorStore ChatHandler.

(** An uploaded file: its name and its bytes (the upload is held in
    memory, so [seek] and [read] do not fail). *)
Record UploadedFile : Type := { name : str; data : list Byte.byte }.

(** What [docx.Document] gives: the texts of the paragraphs, and for
    every table the texts of the cells of its rows. *)
Record Docx : Type := {
  paragraphs : list str;
  tables : list (list (list str))
}.

Section Extraction.

(** [PyPDF2.PdfReader(file).pages], each page with the outcome of its
    [extract_text()]; [None] is a raised exception, of the reader or of
    one page. *)
Variable PdfReader : list Byte.byte -> option (list (option str)).

(** [docx.Document(file)]. *)
Variable Document : list Byte.byte -> option Docx.

(** [bytes.decode('utf-8')]; [None] is [UnicodeDecodeError]. *)
Variable decode_utf8 : list Byte.byte -> option str.

(** [str.lower], a table of the Unicode database. *)
Variable lower : str -> str.

(** The loop over [enumerate(pdf_reader.pages)]. *)
Fixpoint pdf_pages (page_num : Z) (pages : list (option str)) (text : str)
    : str :=
  match pages with
  | [] => text
  | page :: rest =>
      match page with
      | Some page_text =>
          if truthy page_text then
            pdf_pages (page_num + 1) rest
              (text ++ [NL] ++ lit "--- Page " ++ str_of_Z (page_num + 1)
                    ++ lit " ---" ++ [NL] ++ page_text ++ [NL])
          else pdf_pages (page_num + 1) rest text
      | None => pdf_pages (page_num + 1) rest text
      end
  end.

Definition extract_text_from_pdf (pdf_file : UploadedFile) : str :=
  match PdfReader (data pdf_file) with
  | Some pages => strip (pdf_pages 0 pages [])
  | None => []
  end.

(** The loop over [doc.paragraphs]. *)
Fixpoint docx_paragraphs (ps : list str) (text : str) : str :=
  match ps with
  | [] => text
  | p :: rest =>
      if truthy (strip p) then docx_paragraphs rest (text ++ p ++ [NL])
      else docx_paragraphs rest text
  end.

(** The loop over the cells of one row. *)
Fixpoint docx_cells (cells : list str) (text : str) : str :=
  match cells with
  | [] => text
  | c :: rest =>
      if truthy (strip c) then docx_cells rest (text ++ c ++ [SP])
      else docx_cells rest text
  end.

(** The loop over the rows of one table: a newline after every row. *)
Fixpoint docx_rows (rows : list (list str)) (text : str) : str :=
  match rows with
  | [] => text
  | row :: rest => docx_rows rest (docx_cells row text ++ [NL])
  end.

Fixpoint docx_tables (ts : list (list (list str))) (text : str) : str :=
  match ts with
  | [] => text
  | t :: rest => docx_tables rest (docx_rows t text)
  end.

Definition extract_text_from_docx (docx_file : UploadedFile) : str :=
  match Document (data docx_file) with
  | Some doc => strip (docx_tables (tables doc) (docx_paragraphs (paragraphs doc) []))
  | None => []
  end.

Definition extract_text_from_txt (txt_file : UploadedFile) : str :=
  let text :=
    match decode_utf8 (data txt_file) with
    | Some text => text
    | None => decode_latin1 (data txt_file)
    end in
  strip text.

(** [uploaded_file.name.split('.')[-1].lower()]. *)
Definition file_extension (f : UploadedFile) : option str :=
  match getitem (split DOT (name f)) (-1) with
  | Some part => Some (lower part)
  | None => None
  end.

(** [None] for the argument is Python's [None]; a raised [IndexError]
    cannot occur, [split] never answers the empty list. *)
Definition process_uploaded_file (uploaded_file : option UploadedFile) : str :=
  match uploaded_file with
  | None => []
  | Some f =>
      match file_extension f with
      | None => []
      | Some ext =>
          if decide (ext = lit "pdf") then extract_text_from_pdf f
          else if decide (ext = lit "docx") then extract_text_from_docx f
          else if decide (ext = lit "txt") then extract_text_from_txt f
          else []
      end
  end.

End Extraction.

End Extractors.

(* ===================================================================== *)
(** * chat_handler.py: summary and suggested questions *)
(* ===================================================================== *)

Module Assistant.
Import Py PyText VectorStore ChatHandler.

(** The bullet marker of [suggest_questions], three characters in the
    source file: U+00E2, U+20AC, U+00A2. *)
Definition BULLET : str := [226%N; 8364%N; 162%N].
Definition DASH : str := [45%N].
Definition STAR : str := [42%N].
Definition QUESTION_MARK : str := [63%N].

Section Model.

Context {World : Type}.

(** [self.model.generate_content(prompt).text]: the text of the response,
    or the message of the exception that was raised. *)
Variable generate_content : str -> World -> (str + str) * World.

(** The same call for a caller that does not look at the message. *)
Definition generate_content_opt : str -> M World str :=
  fun prompt w =>
    match generate_content prompt w with
    | (inl text, w') => (Some text, w')
    | (inr _, w') => (None, w')
    end.

Definition summary_prompt (text : str) : str :=
  lit "Please provide a concise summary of the following document. Focus on the main points, key findings, and important information.

**DOCUMENT:**
" ++ slice text 0 8000 ++ lit "  # Limit to avoid token limits

**SUMMARY:**".

Definition generate_summary (text : str) (w : World) : str * World :=
  match generate_content (summary_prompt text) w with
  | (inl response_text, w') =>
      if truthy response_text then (response_text, w')
      else (lit "Could not generate summary.", w')
  | (inr e, w') => (lit "Error generating summary: " ++ e, w')
  end.

Definition questions_prompt (sample_text : str) : str :=
  lit "Based on this document excerpt, suggest 3-5 relevant questions that a user might ask. Focus on the main topics and important information covered.

**DOCUMENT EXCERPT:**
" ++ sample_text ++ lit "

**SUGGESTED QUESTIONS:**
Please provide questions in a simple list format.".

(** The loop over the lines of the response. *)
Fixpoint parse_questions (lines : list str) (questions : list str)
    : list str :=
  match lines with
  | [] => questions
  | line :: rest =>
      let line := strip line in
      if truthy line
         && (startswith line DASH || startswith line BULLET
             || startswith line STAR)
      then
        let question := strip (slice line 1 (len line)) in
        if truthy question then parse_questions rest (questions ++ [question])
        else parse_questions rest questions
      else if endswith line QUESTION_MARK
      then parse_questions rest (questions ++ [line])
      else parse_questions rest questions
  end.

Definition suggest_questions (context_chunks : list result) (w : World)
    : list str * World :=
  match context_chunks with
  | [] => ([], w)
  | (text, _, _) :: _ =>
      let sample_text := slice text 0 2000 in
      match generate_content (questions_prompt sample_text) w with
      | (inl response_text, w') =>
          if truthy response_text then
            (slice (parse_questions (split NL response_text) []) 0 5, w')
          else ([], w')
      | (inr _, w') => ([], w')
      end
  end.

End Model.

End Assistant.

(* ===================================================================== *)
(** * app.py: the session and its actions *)
(* ===================================================================== *)

Module App.
Import Py PyText DocumentProcessor VectorStore ChatHandler Extractors Assistant.

Inductive role_t : Type := user | assistant.

(** One entry of [chat_history]; the key ["sources"] may be absent. *)
Record message : Type := {
  role : role_t;
  content : str;
  sources : option (list str)
}.

(** One entry of [processing_info]. *)
Record info : Type := {
  info_file : str;
  info_chunks : Z;
  info_characters : Z
}.

Section Session.

Context {F : Faiss} {World : Type}.

(** The libraries and services the application is wired to. *)
Variable unicode_alnum : char -> bool.
Variable PdfReader : list Byte.byte -> option (list (option str)).
Variable Document : list Byte.byte -> option Docx.
Variable decode_utf8 : list Byte.byte -> option str.
Variable lower : str -> str.
Variable embed_content : task_type -> str -> M World vec.
Variable generate_content : str -> World -> (str + str) * World.
Variable format_2f : Q -> str.

(** [st.session_state], once [main] has created the store.  The
    attribute [processing_info] may be absent. *)
Record session : Type := {
  vector_store : VectorStore;
  chat_history : list message;
  documents_processed : bool;
  processed_files : list str;
  processing_info : option (list info);
  suggested_questions : list str
}.

(** [processor.chunk_text(text)] with the default [chunk_size] and
    [overlap]; the fuel given is enough for the loop to return. *)
Definition chunk_text_default (text : str) : list str :=
  default []
    (chunk_text unicode_alnum
       (S (Z.to_nat (len (clean_text unicode_alnum text)))) text 1000 200).

(** The loop of [process_documents] over the uploaded files.  (The list
    [chunk_metadata] it also builds is never used.) *)
Fixpoint gather (uploaded_files : list UploadedFile)
    (all_chunks processed : list str) (infos : list info)
    : list str * list str * list info :=
  match uploaded_files with
  | [] => (all_chunks, processed, infos)
  | uploaded_file :: rest =>
      let text :=
        process_uploaded_file PdfReader Document decode_utf8 lower
          (Some uploaded_file) in
      if truthy text then
        let chunks := chunk_text_default text in
        gather rest (all_chunks ++ chunks)
          (processed ++ [name uploaded_file])
          (infos ++ [{| info_file := name uploaded_file;
                        info_chunks := len chunks;
                        info_characters := len text |}])
      else gather rest all_chunks processed infos
  end.

(** The metadata handed to [add_documents]: for every file, one entry
    per chunk. *)
Definition chunk_metadata (infos : list info) : list (gmap str value) :=
  List.flat_map
    (fun i =>
       List.map (fun j => <[ lit "chunk_id" := VInt j ]>
                            {[ lit "source" := VStr (info_file i) ]})
                (range 0 (info_chunks i) 1))
    infos.

Definition process_documents (uploaded_files : list UploadedFile)
    (s : session) (w : World) : session * World :=
  let '(all_chunks, processed, infos) := gather uploaded_files [] [] [] in
  if truthy all_chunks then
    let store := clear (vector_store s) in
    let '(success, store, w) :=
      add_documents embed_content store all_chunks
                    (Some (chunk_metadata infos)) w in
    if success then
      ({| vector_store := store;
          chat_history := [];
          documents_processed := true;
          processed_files := processed;
          processing_info := Some infos;
          suggested_questions := suggested_questions s |}, w)
    else
      ({| vector_store := store;
          chat_history := chat_history s;
          documents_processed := documents_processed s;
          processed_files := processed_files s;
          processing_info := processing_info s;
          suggested_questions := suggested_questions s |}, w)
  else (s, w).

(** The line of one source under an answer. *)
Definition source_line (r : result) : str :=
  let '(_, score, metadata) := r in
  str_of_value (default (VStr (lit "Unknown")) (metadata !! lit "source"))
  ++ lit " - Relevance: " ++ format_2f score.

(** What [display_chat_interface] does with a question typed in. *)
Definition ask (prompt : str) (s : session) (w : World) : session * World :=
  let history :=
    chat_history s ++ [{| role := user; content := prompt; sources := None |}] in
  let '(context_chunks, w) := search embed_content (vector_store s) prompt 5 w in
  let '(response, w) :=
    generate_response format_2f (generate_content_opt generate_content)
                      prompt context_chunks w in
  let answer :=
    if truthy context_chunks then
      {| role := assistant; content := response;
         sources := Some (List.map source_line (slice context_chunks 0 3)) |}
    else {| role := assistant; content := response; sources := None |} in
  ({| vector_store := vector_store s;
      chat_history := history ++ [answer];
      documents_processed := documents_processed s;
      processed_files := processed_files s;
      processing_info := processing_info s;
      suggested_questions := suggested_questions s |}, w).

(** The chunks [generate_suggested_questions] makes up from the first
    stored texts when the search gave nothing. *)
Fixpoint mock_chunks (i : Z) (texts_ : list str) : list result :=
  match texts_ with
  | [] => []
  | text :: rest =>
      (text, 1%Q, {[ lit "source" := VStr (lit "Document " ++ str_of_Z (i + 1)) ]})
        :: mock_chunks (i + 1) rest
  end.

Definition generate_suggested_questions (s : session) (w : World)
    : session * World :=
  if negb (documents_processed s) then (s, w)
  else
    let '(sample_chunks, w) :=
      search embed_content (vector_store s) (lit "summary main topics") 3 w in
    let sample_chunks :=
      if negb (truthy sample_chunks) && truthy (texts (vector_store s))
      then mock_chunks 0 (slice (texts (vector_store s)) 0 3)
      else sample_chunks in
    if truthy sample_chunks then
      let '(questions, w) := suggest_questions generate_content sample_chunks w in
      ({| vector_store := vector_store s;
          chat_history := chat_history s;
          documents_processed := documents_processed s;
          processed_files := processed_files s;
          processing_info := processing_info s;
          suggested_questions := questions |}, w)
    else (s, w).

Definition clear_all_data (s : session) : session :=
  {| vector_store := clear (vector_store s);
     chat_history := [];
     documents_processed := false;
     processed_files := [];
     processing_info := None;
     suggested_questions := [] |}.

(** The figures of [display_analytics]. *)
Definition total_messages (s : session) : Z := len (chat_history s).

Definition user_messages (s : session) : Z :=
  len (List.filter (fun m => match role m with user => true | _ => false end)
                   (chat_history s)).

End Session.

End App.

(* ===================================================================== *)
(** * Further notions about the store *)
(* ===================================================================== *)

Module StoreNotions.
Import Py VectorStore.

(** Every metadata object carries its own offset as ["chunk_id"]. *)
Definition ids_are_offsets {F : Faiss} (s : VectorStore) : Prop :=
  forall (i : nat) (m : gmap str value),
    metadata s !! i = Some m ->
    m !! lit "chunk_id" = Some (VInt (Z.of_nat i)).

(** An operation that gives no metadata of its own: [None] or the empty
    list for [add_documents]. *)
Definition without_metadata (o : op) : Prop :=
  match o with
  | OpAddDocuments _ (Some (_ :: _)) => False
  | _ => True
  end.

(** A file system in which both files of the path [p] hold an index, so
    that the second holds no bundle. *)
Definition broken_files {F : Faiss} (ix : Index) (p : str) : gmap str file :=
  <[p ++ lit ".pkl" := FaissFile ix]> (<[p ++ lit ".faiss" := FaissFile ix]> ∅).

End StoreNotions.

(* ===================================================================== *)
(** * A small instance of the application *)
(* ===================================================================== *)

Module DemoApp.
Import Py PyText VectorStore FlatL2 Extractors Assistant App Demo.

(** A reader that finds three pages, the second of which cannot be
    read. *)
Definition reader : list Byte.byte -> option (list (option str)) :=
  fun _ => Some [Some (lit "First page."); None; Some (lit "Third page.")].

(** A document of two paragraphs, one blank, and one table of one row. *)
Definition document : list Byte.byte -> option Docx :=
  fun _ => Some {| paragraphs := [lit "Title"; lit "  "];
                   tables := [[[lit "a"; lit ""; lit "b"]]] |}.

(** A decoder that accepts ASCII only. *)
Definition decode_ascii (b : list Byte.byte) : option str :=
  if forallb (fun x => (Byte.to_N x <? 128)%N) b
  then Some (decode_latin1 b) else None.

Definition report_pdf : UploadedFile :=
  {| name := lit "Annual.Report.PDF"; data := [] |}.

Definition notes_txt : UploadedFile :=
  {| name := lit "notes.txt";
     data := [Byte.x20; Byte.x68; Byte.x69; Byte.xff; Byte.x0a] |}.

(** A generative model that answers every prompt with the same list. *)
Definition model : str -> unit -> (str + str) * unit :=
  fun _ w =>
    (inl (lit "Here are some questions:
- What is the main topic?
* 
Who wrote it?
1. not a question
-   How long is it?  "), w).

Definition format : Q -> str := fun _ => lit "0.50".

(** An embedding service that serves documents and raises on queries. *)
Definition service_without_queries : task_type -> str -> M unit vec :=
  fun task text w =>
    match task with
    | retrieval_query => (None, w)
    | retrieval_document => service task text w
    end.

Definition session0 : @session flat_faiss :=
  {| vector_store := init; chat_history := []; documents_processed := false;
     processed_files := []; processing_info := None;
     suggested_questions := [] |}.

(** The session after the two demo files were processed. *)
Definition session1 : @session flat_faiss :=
  fst (process_documents (F := flat_faiss) (fun _ => false) reader document
         decode_ascii ascii_lower service [report_pdf; notes_txt] session0 tt).

End DemoApp.

(* ===================================================================== *)
(** * Facts about the string primitives *)
(* ===================================================================== *)

Module PyFacts.
Import Py.

Lemma len_nonneg {A} (l : list A) : 0 <= len l.
Proof. unfold len. lia. Qed.

Lemma len_app {A} (l1 l2 : list A) : len (l1 ++ l2) = len l1 + len l2.
Proof. unfold len. rewrite List.length_app. lia. Qed.

Lemma clamp_nonneg_arg n i : 0 <= n -> 0 <= i -> clamp n i = Z.min i n.
Proof. intros Hn Hi. unfold clamp. destruct (Z.ltb_spec i 0); lia. Qed.

Lemma clamp_range n i : 0 <= n -> 0 <= clamp n i <= n.
Proof. intros Hn. unfold clamp. destruct (Z.ltb_spec i 0); lia. Qed.

Lemma slice_nonneg {A} (t : list A) a b :
  0 <= a -> 0 <= b ->
  slice t a b =
  firstn (Z.to_nat (Z.min b (len t) - Z.min a (len t)))
         (skipn (Z.to_nat (Z.min a (len t))) t).
Proof.
  intros Ha Hb. unfold slice.
  rewrite !clamp_nonneg_arg by auto using len_nonneg. reflexivity.
Qed.

Lemma slice_length_le {A} (t : list A) a b :
  len (slice t a b) <= Z.max 0 (clamp (len t) b - clamp (len t) a).
Proof.
  unfold slice, len at 1.
  pose proof (List.firstn_le_length
                (Z.to_nat (clamp (len t) b - clamp (len t) a))
                (skipn (Z.to_nat (clamp (len t) a)) t)).
  lia.
Qed.

Lemma rfind_from_range c l i k :
  rfind_from c l i = Some k -> i <= k < i + len l.
Proof.
  revert i k. induction l as [|x r IH]; intros i k; simpl; [discriminate|].
  unfold len; simpl List.length.
  destruct (rfind_from c r (i + 1)) as [k'|] eqn:E.
  - intros [= <-]. apply IH in E. unfold len in E. lia.
  - destruct (x =? c)%N; [intros [= <-]; lia | discriminate].
Qed.

(** [rfind] answers [-1] or an index inside the searched range. *)
Lemma rfind_range t c a b :
  0 <= a -> 0 <= b ->
  rfind t c a b = -1 \/ (a <= rfind t c a b < b /\ rfind t c a b < len t).
Proof.
  intros Ha Hb. unfold rfind.
  destruct (rfind_from c (slice t a b) (clamp (len t) a)) as [k|] eqn:E;
    [right | now left].
  apply rfind_from_range in E.
  pose proof (slice_length_le t a b) as L.
  pose proof (len_nonneg t) as Hn.
  rewrite !clamp_nonneg_arg in * by auto.
  assert (a <= len t \/ len t < a) as [?|?] by lia; [lia|].
  exfalso. lia.
Qed.

Lemma lstrip_split t :
  exists sp, t = sp ++ lstrip t /\ Forall (fun c => is_space c = true) sp.
Proof.
  induction t as [|c r [sp [E F]]]; simpl.
  - exists []. split; [reflexivity | constructor].
  - destruct (is_space c) eqn:S.
    + exists (c :: sp). split; [simpl; congruence | constructor; assumption].
    + exists []. split; [reflexivity | constructor].
Qed.

Lemma rstrip_split t :
  exists sp, t = rstrip t ++ sp /\ Forall (fun c => is_space c = true) sp.
Proof.
  induction t as [|c r [sp [E F]]]; simpl.
  - exists []. split; [reflexivity | constructor].
  - destruct (rstrip r) as [|y r'] eqn:R.
    + simpl in E. subst r. destruct (is_space c) eqn:S.
      * exists (c :: sp). split; [reflexivity | constructor; assumption].
      * exists sp. split; [reflexivity | assumption].
    + exists sp. split; [simpl; f_equal; exact E | assumption].
Qed.

(** [strip] removes a run of whitespace at each end and nothing else. *)
Lemma strip_split t :
  exists sp1 sp2,
    t = sp1 ++ strip t ++ sp2 /\
    Forall (fun c => is_space c = true) sp1 /\
    Forall (fun c => is_space c = true) sp2.
Proof.
  destruct (lstrip_split t) as [sp1 [E1 F1]].
  destruct (rstrip_split (lstrip t)) as [sp2 [E2 F2]].
  exists sp1, sp2. unfold strip. split; [|split]; try assumption.
  rewrite <- E2. exact E1.
Qed.

Lemma strip_incl t c : In c (strip t) -> In c t.
Proof.
  destruct (strip_split t) as [sp1 [sp2 [E _]]]. intros H.
  rewrite E. apply List.in_or_app. right. apply List.in_or_app. now left.
Qed.

(** After [re.sub(cls+, rep, _)] only [rep] can still be in [cls]. *)
Lemma re_sub_runs_class cls rep t c :
  In c (re_sub_runs cls rep t) -> cls c = false \/ c = rep.
Proof.
  induction t as [|x r IH]; simpl; [tauto|].
  destruct (cls x) eqn:X.
  - destruct r as [|y r'].
    + simpl. intros [<-|[]]. now right.
    + destruct (cls y); [exact IH|]. intros [<-|H]; [now right | auto].
  - intros [<-|H]; [now left | auto].
Qed.

Lemma slice_firstn_skipn {A} (t : list A) a b :
  0 <= a <= b ->
  slice t a b = firstn (Z.to_nat (b - a)) (skipn (Z.to_nat a) t).
Proof.
  intros H. rewrite slice_nonneg by lia. unfold len.
  destruct (Z.le_gt_cases a (Z.of_nat (List.length t))) as [Ha|Ha].
  - replace (Z.min a (Z.of_nat (List.length t))) with a by lia.
    destruct (Z.le_gt_cases b (Z.of_nat (List.length t))) as [Hb|Hb].
    + now replace (Z.min b (Z.of_nat (List.length t))) with b by lia.
    + rewrite !List.firstn_all2; try reflexivity;
        rewrite List.length_skipn; lia.
  - rewrite (List.skipn_all2 (n := Z.to_nat a)) by lia.
    rewrite List.firstn_nil.
    replace (Z.to_nat
               (Z.min b (Z.of_nat (List.length t))
                - Z.min a (Z.of_nat (List.length t)))) with 0%nat by lia.
    reflexivity.
Qed.

Lemma windows_concat {A} (l : list A) (n : nat) :
  (0 < n)%nat ->
  forall m k,
    (List.length l <= n * (k + m))%nat ->
    List.concat (List.map (fun j => firstn n (skipn (n * j) l)) (List.seq k m))
    = skipn (n * k) l.
Proof.
  intros Hn. induction m as [|m IH]; intros k Hl; simpl.
  - rewrite List.skipn_all2 by lia. reflexivity.
  - rewrite IH by lia.
    replace (n * S k)%nat with (n + n * k)%nat by lia.
    rewrite <- List.skipn_skipn. apply List.firstn_skipn.
Qed.

End PyFacts.

(* ===================================================================== *)
(** * Properties of the chunker *)
(* ===================================================================== *)

Module ChunkerProofs.
Import Py PyFacts DocumentProcessor.

Section Normalisation.

Variable unicode_alnum : char -> bool.
Abbreviation clean_text := (clean_text unicode_alnum).
Abbreviation allowed := (allowed unicode_alnum).

Lemma clean_text_incl_filtered text c :
  In c (clean_text text) ->
  allowed c = true /\ (is_space c = false \/ c = SP).
Proof.
  unfold DocumentProcessor.clean_text.
  destruct (truthy text); simpl; [|tauto].
  intros H. apply strip_incl in H. unfold re_sub_delete in H.
  apply List.filter_In in H. destruct H as [H A].
  rewrite negb_involutive in A. split; [exact A|].
  eapply re_sub_runs_class; exact H.
Qed.

(** Every character of the normalised text is on the allow-list. *)
Lemma clean_text_allowed text :
  Forall (fun c => allowed c = true) (clean_text text).
Proof.
  apply List.Forall_forall. intros c H.
  now apply clean_text_incl_filtered in H.
Qed.

(** The only whitespace left by the normalisation is the space. *)
Lemma clean_text_whitespace text c :
  In c (clean_text text) -> is_space c = true -> c = SP.
Proof.
  intros H S. apply clean_text_incl_filtered in H.
  destruct H as [_ [H|H]]; congruence.
Qed.

End Normalisation.

(** C3, evaluated on the code: the pass that collapses newlines is undone
    by the pass that follows it, because the class [\s] contains the
    newline.  The input ["a\nb"] is normalised to ["a b"], and no newline
    is ever left in a normalised text. *)
Theorem clean_text_newline_lost :
  forall unicode_alnum : char -> bool,
    clean_text unicode_alnum [97%N; NL; 98%N] = [97%N; SP; 98%N] /\
    forall text, ~ In NL (clean_text unicode_alnum text).
Proof.
  intros ua. split; [reflexivity|].
  intros text H. apply clean_text_whitespace in H; [discriminate | reflexivity].
Qed.

Section ShortText.

Variable unicode_alnum : char -> bool.
Abbreviation clean_text := (clean_text unicode_alnum).
Abbreviation chunk_text := (chunk_text unicode_alnum).

(** C4 as amended: a non-empty text whose normalised form fits in
    [chunk_size] gives exactly one chunk, the normalised text (which may
    be empty). *)
Theorem chunk_text_short :
  forall (fuel : nat) (text : str) (chunk_size overlap : Z),
    text <> [] ->
    len (clean_text text) <= chunk_size ->
    chunk_text fuel text chunk_size overlap = Some [clean_text text].
Proof.
  intros fuel text cs ov Hne Hle. unfold DocumentProcessor.chunk_text.
  destruct text as [|c r]; [contradiction|]. simpl negb. cbv iota.
  destruct (Z.leb_spec (len (clean_text (c :: r))) cs); [reflexivity | lia].
Qed.

End ShortText.

(** C4 as stated fails on the empty text: its normalised form is empty,
    hence no longer than [chunk_size], and no chunk is returned. *)
Lemma chunk_text_empty_input :
  len (clean_text (fun _ => false) []) <= 1000 /\
  chunk_text (fun _ => false) 1 [] 1000 200 = Some [] /\
  chunk_text (fun _ => false) 1 [] 1000 200
    <> Some [clean_text (fun _ => false) []].
Proof. repeat split; [discriminate | discriminate]. Qed.

(** A text of three spaces: one chunk, the empty string. *)
Lemma chunk_text_short_witness :
  lit "   " <> [] /\
  len (clean_text (fun _ => false) (lit "   ")) <= 1000 /\
  chunk_text (fun _ => false) 0 (lit "   ") 1000 200 = Some [[]].
Proof.
  split; [discriminate|]. split; [discriminate|].
  exact (chunk_text_short (fun _ => false) 0 (lit "   ") 1000 200
           ltac:(discriminate) ltac:(discriminate)).
Defined.

(** ** The window loop *)

Section Windows.

Variables (text : str) (chunk_size overlap : Z).
Hypothesis size_pos : 1 <= chunk_size.
Hypothesis overlap_small : 0 <= overlap <= chunk_size / 2.

(** The window ends past its middle and no later than the raw cut. *)
Lemma window_end_range start :
  0 <= start ->
  start + chunk_size / 2 < window_end text chunk_size start
                          <= start + chunk_size.
Proof using size_pos.
  clear overlap_small.
  intros Hs. unfold window_end.
  assert (chunk_size / 2 < chunk_size) by (apply Z.div_lt; lia).
  assert (0 <= chunk_size / 2) by (apply Z.div_pos; lia).
  destruct (Z.ltb_spec (start + chunk_size) (len text)); [|lia].
  pose proof (rfind_range text DOT start (start + chunk_size)
                ltac:(lia) ltac:(lia)) as R1.
  pose proof (rfind_range text NL start (start + chunk_size)
                ltac:(lia) ltac:(lia)) as R2.
  pose proof (rfind_range text SP start (start + chunk_size)
                ltac:(lia) ltac:(lia)) as R3.
  repeat match goal with
         | |- context [?a >? ?b] => destruct (Z.gtb_spec a b)
         end; lia.
Qed.

(** Each pass moves [start] forward. *)
Lemma chunk_body_advances start chunks :
  0 <= start ->
  start < fst (chunk_body text chunk_size overlap start chunks).
Proof using size_pos overlap_small.
  intros Hs. unfold chunk_body. simpl.
  pose proof (window_end_range start Hs). lia.
Qed.

Lemma chunk_body_nonempty start chunks :
  Forall (fun c => c <> []) chunks ->
  Forall (fun c => c <> [])
         (snd (chunk_body text chunk_size overlap start chunks)).
Proof using Type.
  intros F. unfold chunk_body. simpl.
  destruct (strip (slice text start (window_end text chunk_size start)))
    as [|x r] eqn:E; simpl; [exact F|].
  apply List.Forall_app. split; [exact F|]. constructor; [discriminate|constructor].
Qed.

Lemma covered_mono chunks chunks' p :
  (forall c, In c chunks -> In c chunks') ->
  covered text chunks p -> covered text chunks' p.
Proof using Type.
  intros I (pre & c & post & E & Hin & R).
  exists pre, c, post. auto.
Qed.

Lemma chunk_body_keeps start chunks c :
  In c chunks ->
  In c (snd (chunk_body text chunk_size overlap start chunks)).
Proof using Type.
  intros H. unfold chunk_body. simpl.
  destruct (truthy _); [apply List.in_or_app; now left | exact H].
Qed.

(** A character that is not whitespace and lies in the window is inside
    the chunk cut from the window. *)
Lemma chunk_body_covers start chunks (p : nat) ch :
  0 <= start ->
  start <= Z.of_nat p < window_end text chunk_size start ->
  nth_error text p = Some ch -> is_space ch = false ->
  covered text (snd (chunk_body text chunk_size overlap start chunks)) p.
Proof using size_pos.
  clear overlap_small.
  intros Hs Hp Hn Hc.
  pose proof (window_end_range start Hs) as W.
  set (e := window_end text chunk_size start) in *.
  assert (Hlt : (p < List.length text)%nat).
  { apply List.nth_error_Some. congruence. }
  unfold chunk_body. fold e. simpl.
  pose proof (slice_nonneg text start e Hs ltac:(lia)) as Sl.
  unfold len in Sl.
  set (a := Z.to_nat (Z.min start (Z.of_nat (List.length text)))) in *.
  set (n := Z.to_nat (Z.min e (Z.of_nat (List.length text))
                      - Z.min start (Z.of_nat (List.length text)))) in *.
  assert (Ha : a = Z.to_nat start) by (unfold a; lia).
  destruct (strip_split (slice text start e)) as (sp1 & sp2 & E & F1 & F2).
  assert (T : text = firstn a text
                     ++ slice text start e ++ skipn n (skipn a text)).
  { rewrite Sl. rewrite List.firstn_skipn. now rewrite List.firstn_skipn. }
  assert (Hw : nth_error (slice text start e) (p - a) = Some ch).
  { rewrite Sl. rewrite List.nth_error_firstn.
    destruct (Nat.ltb_spec (p - a) n) as [_|Hge]; [|unfold n in Hge; lia].
    rewrite List.nth_error_skipn. replace (a + (p - a))%nat with p by lia.
    exact Hn. }
  set (c := strip (slice text start e)) in *.
  assert (Hin : (List.length sp1 <= p - a < List.length sp1 + List.length c)%nat).
  { rewrite E in Hw.
    destruct (Nat.lt_ge_cases (p - a) (List.length sp1)) as [L|L].
    - rewrite List.nth_error_app1 in Hw by exact L.
      apply List.nth_error_In in Hw.
      rewrite List.Forall_forall in F1. apply F1 in Hw. congruence.
    - rewrite List.nth_error_app2 in Hw by exact L.
      destruct (Nat.lt_ge_cases (p - a - List.length sp1) (List.length c))
        as [L'|L']; [lia|].
      rewrite List.nth_error_app2 in Hw by exact L'.
      apply List.nth_error_In in Hw.
      rewrite List.Forall_forall in F2. apply F2 in Hw. congruence. }
  assert (Hc' : truthy c = true).
  { destruct c; [simpl in Hin; lia | reflexivity]. }
  rewrite Hc'.
  exists (firstn a text ++ sp1), c, (sp2 ++ skipn n (skipn a text)).
  split; [|split].
  - rewrite T at 1. rewrite E. now rewrite <- !List.app_assoc.
  - apply List.in_or_app. right. now left.
  - rewrite List.length_app, List.length_firstn. lia.
Qed.

(** The loop returns: fuel above the distance from [start] to the end of
    the text is enough.  At the exit [start] has reached the length of the
    text, the chunks are non-empty, and every character that is not
    whitespace lies in one of them. *)
Lemma chunk_loop_returns fuel :
  forall (start : Z) (chunks : list str),
    0 <= start ->
    Z.max 0 (len text - start) < Z.of_nat fuel ->
    Forall (fun c => c <> []) chunks ->
    (forall (p : nat) ch,
        Z.of_nat p < start ->
        nth_error text p = Some ch -> is_space ch = false ->
        covered text chunks p) ->
    exists final chunks',
      chunk_loop fuel text chunk_size overlap start chunks
        = Some (final, chunks') /\
      len text <= final /\
      Forall (fun c => c <> []) chunks' /\
      (forall (p : nat) ch,
          nth_error text p = Some ch -> is_space ch = false ->
          covered text chunks' p).
Proof using size_pos overlap_small.
  induction fuel as [|fuel IH]; intros start chunks Hs Hf Hne Hcov.
  - simpl in Hf. lia.
  - cbn [chunk_loop].
    assert (Hlen : forall (p : nat) ch,
               nth_error text p = Some ch -> Z.of_nat p < len text).
    { intros p ch Hn. unfold len.
      assert (p < List.length text)%nat
        by (apply List.nth_error_Some; congruence). lia. }
    destruct (Z.ltb_spec start (len text)) as [Hlt|Hge].
    + pose proof (chunk_body_advances start chunks Hs) as Adv.
      pose proof (chunk_body_nonempty start chunks Hne) as Ne.
      pose proof (window_end_range start Hs) as W.
      assert (Cov : forall (p : nat) ch,
                 Z.of_nat p < window_end text chunk_size start ->
                 nth_error text p = Some ch -> is_space ch = false ->
                 covered text
                   (snd (chunk_body text chunk_size overlap start chunks)) p).
      { intros p ch Hp Hn Hc.
        destruct (Z.lt_ge_cases (Z.of_nat p) start) as [L|L].
        - eapply covered_mono; [|eapply Hcov; eauto; lia].
          intros c. apply chunk_body_keeps.
        - eapply chunk_body_covers; eauto. }
      destruct (chunk_body text chunk_size overlap start chunks)
        as [start' chunks'] eqn:B.
      simpl in Adv, Ne, Cov.
      assert (St : start' = window_end text chunk_size start - overlap).
      { unfold chunk_body in B. now inversion B. }
      destruct (Z.geb_spec start' (len text)) as [Hex|Hcont].
      * exists start', chunks'.
        split; [reflexivity|]. split; [lia|]. split; [assumption|].
        intros p ch Hn Hc. eapply Cov; eauto.
        specialize (Hlen p ch Hn). lia.
      * apply IH; auto; try lia.
        intros p ch Hp. apply (Cov p ch). lia.
    + exists start, chunks.
      split; [reflexivity|]. split; [lia|]. split; [assumption|].
      intros p ch Hn Hc. eapply Hcov; eauto.
      specialize (Hlen p ch Hn). lia.
Qed.

(** More fuel does not change the result. *)
Lemma chunk_loop_more_fuel fuel :
  forall fuel' start chunks r,
    (fuel <= fuel')%nat ->
    chunk_loop fuel text chunk_size overlap start chunks = Some r ->
    chunk_loop fuel' text chunk_size overlap start chunks = Some r.
Proof using Type.
  induction fuel as [|fuel IH]; intros fuel' start chunks r Hle;
    cbn [chunk_loop]; [discriminate|].
  destruct fuel' as [|fuel']; [lia|]. cbn [chunk_loop].
  destruct (start <? len text); [|auto].
  destruct (chunk_body text chunk_size overlap start chunks) as [s' c'].
  destruct (s' >=? len text); [auto|]. apply IH. lia.
Qed.

End Windows.

Section Chunking.

Variable unicode_alnum : char -> bool.
Abbreviation clean_text := (clean_text unicode_alnum).
Abbreviation chunk_text := (chunk_text unicode_alnum).

(** C8: with the default [chunk_size = 1000] and [overlap = 200] the
    chunker returns for every text: some amount of fuel is enough, and any
    larger amount gives the same chunks.  When the loop runs, it is left
    with [start], which is [end - overlap] of the last window, at or past
    the length of the text. *)
Theorem chunk_text_default_terminates :
  forall text : str,
  exists (fuel : nat) (chunks : list str),
    (forall fuel', (fuel <= fuel')%nat ->
                   chunk_text fuel' text 1000 200 = Some chunks) /\
    (1000 < len (clean_text text) ->
     exists final,
       chunk_loop fuel (clean_text text) 1000 200 0 [] = Some (final, chunks)
       /\ len (clean_text text) <= final).
Proof.
  intros text. set (t := clean_text text).
  destruct (Z.leb_spec (len t) 1000) as [Hshort|Hlong].
  - exists 0%nat.
    exists (if truthy text then [t] else []).
    split; [|lia].
    intros fuel' _. unfold DocumentProcessor.chunk_text. fold t.
    destruct (truthy text); simpl; [|reflexivity].
    destruct (Z.leb_spec (len t) 1000); [reflexivity | lia].
  - destruct (chunk_loop_returns t 1000 200 ltac:(lia)
                ltac:(change (1000 / 2) with 500; lia)
                (S (Z.to_nat (len t))) 0 (@nil str) ltac:(lia) ltac:(lia)
                ltac:(constructor))
      as (final & chunks & L & Hfin & _ & _).
    { intros p ch Hp Hn Hc. exfalso.
      assert (p < List.length t)%nat
        by (apply List.nth_error_Some; congruence).
      clear -Hp. lia. }
    exists (S (Z.to_nat (len t))), chunks. split.
    + intros fuel' Hle. unfold DocumentProcessor.chunk_text. fold t.
      assert (truthy text = true) as ->.
      { destruct text; [|reflexivity]. unfold t in Hlong.
        vm_compute in Hlong. discriminate. }
      simpl negb. cbv iota.
      destruct (Z.leb_spec (len t) 1000); [lia|].
      now rewrite (chunk_loop_more_fuel t 1000 200 _ fuel' 0 [] _ Hle L).
    + intros _. exists final. auto.
Qed.


End Chunking.

(** Without the bound on [overlap] the loop may run for ever: with
    [chunk_size = overlap = 10] on twenty letters every window starts at 0,
    and no amount of fuel is enough. *)
Lemma chunk_loop_can_diverge :
  forall (fuel : nat) (chunks : list str),
    chunk_loop fuel (List.repeat 97%N 20) 10 10 0 chunks = None.
Proof.
  induction fuel as [|fuel IH]; intros chunks; [reflexivity|].
  cbn [chunk_loop].
  change (0 <? len (List.repeat 97%N 20)) with true. cbv iota.
  unfold chunk_body.
  change (window_end (List.repeat 97%N 20) 10 0) with 10.
  change (10 - 10 >=? len (List.repeat 97%N 20)) with false. cbv iota.
  apply IH.
Qed.



End ChunkerProofs.

(* ===================================================================== *)
(** * The flat index meets the contract of the library *)
(* ===================================================================== *)

Module FlatL2Proofs.
Import Py PyFacts VectorStore FlatL2.

Lemma l2_sqr_nonneg x y : (0 <= l2_sqr x y)%Q.
Proof.
  unfold l2_sqr.
  induction (List.combine x y) as [|[a b] l IH]; simpl; [apply Qle_refl|].
  assert (0 <= (a - b) * (a - b))%Q.
  { destruct (a - b)%Q as [n d]. unfold Qle. simpl. nia. }
  replace 0%Q with (0 + 0)%Q by reflexivity.
  apply Qplus_le_compat; assumption.
Qed.

Lemma insert_by_distance_incl e l x :
  In x (insert_by_distance e l) -> x = e \/ In x l.
Proof.
  induction l as [|h t IH]; simpl.
  - intros [<-|[]]. now left.
  - destruct (Qle_bool (fst e) (fst h)); simpl.
    + intros [<-|H]; [now left | now right].
    + intros [<-|H]; [right; now left|].
      destruct (IH H); [now left | right; now right].
Qed.

Lemma insert_by_distance_sorted e l :
  StronglySorted by_distance l ->
  StronglySorted by_distance (insert_by_distance e l).
Proof.
  induction 1 as [|h t S IH Fa]; simpl.
  - repeat constructor.
  - destruct (Qle_bool (fst e) (fst h)) eqn:C.
    + apply Qle_bool_iff in C. constructor.
      * now constructor.
      * constructor; [exact C|].
        rewrite List.Forall_forall in *. intros x Hx.
        unfold by_distance in *. eapply Qle_trans; [exact C | now apply Fa].
    + assert (fst h <= fst e)%Q.
      { apply Qlt_le_weak, Qnot_le_lt. intros L.
        apply Qle_bool_iff in L. congruence. }
      constructor; [exact IH|].
      rewrite List.Forall_forall in *. intros x Hx.
      apply insert_by_distance_incl in Hx. destruct Hx as [->|Hx]; auto.
Qed.

Lemma sort_by_distance_sorted l : StronglySorted by_distance (sort_by_distance l).
Proof.
  induction l; simpl; [constructor | now apply insert_by_distance_sorted].
Qed.

Lemma sort_by_distance_incl l x : In x (sort_by_distance l) -> In x l.
Proof.
  revert x. induction l as [|h t IH]; simpl; [tauto|]. intros x H.
  apply insert_by_distance_incl in H. destruct H; [now left | right; auto].
Qed.

Lemma sort_by_distance_length l :
  List.length (sort_by_distance l) = List.length l.
Proof.
  assert (I : forall e m, List.length (insert_by_distance e m)
                          = S (List.length m)).
  { intros e m. induction m as [|h t IH]; simpl; [reflexivity|].
    destruct (Qle_bool (fst e) (fst h)); simpl; congruence. }
  induction l; simpl; [reflexivity|]. rewrite I. congruence.
Qed.

Lemma firstn_incl {A} n (l : list A) x : In x (firstn n l) -> In x l.
Proof.
  revert n. induction l as [|h t IH]; intros [|n]; simpl; try tauto.
  intros [->|H]; [now left | right; eauto].
Qed.

Lemma firstn_sorted {A} (R : A -> A -> Prop) n l :
  StronglySorted R l -> StronglySorted R (firstn n l).
Proof.
  intros S. revert n. induction S as [|h t S IH Fa]; intros [|n]; simpl;
    try constructor; auto.
  rewrite List.Forall_forall in *. intros x Hx.
  apply Fa. eapply firstn_incl. exact Hx.
Qed.

Lemma map_fst_sorted l :
  StronglySorted by_distance l -> StronglySorted Qle (List.map fst l).
Proof.
  induction 1 as [|h t S IH Fa]; simpl; constructor; auto.
  rewrite List.Forall_forall in *. intros d Hd.
  apply List.in_map_iff in Hd. destruct Hd as [x [<- Hx]]. now apply Fa.
Qed.

(** The flat index satisfies the contract. *)
Lemma flat_laws : FaissLaws flat_faiss.
Proof.
  assert (Top : forall (ix : flat) x k,
             0 < k -> k <= len (flat_xb ix) ->
             let scored :=
               List.combine (List.map (l2_sqr x) (flat_xb ix))
                 (List.map Z.of_nat (List.seq 0 (List.length (flat_xb ix)))) in
             let top := firstn (Z.to_nat k) (sort_by_distance scored) in
             List.length top = Z.to_nat k /\
             top ++ List.repeat (FLT_MAX, -1) (Z.to_nat k - List.length top)
             = top).
  { intros ix x k Hk Hle scored top.
    assert (L : List.length top = Z.to_nat k).
    { unfold top. rewrite List.length_firstn, sort_by_distance_length.
      unfold scored.
      rewrite List.length_combine, !List.length_map, List.length_seq.
      unfold len in Hle. lia. }
    split; [exact L|]. rewrite L, Nat.sub_diag. simpl. apply List.app_nil_r. }
  constructor; simpl.
  - intros ix. apply len_nonneg.
  - reflexivity.
  - intros ix x ix'. unfold flat_add.
    destruct (forallb _ _); [|discriminate]. intros [= <-]. simpl.
    apply len_app.
  - intros ix q k D I Hle. unfold flat_search.
    destruct q as [|x [|? ?]]; try discriminate.
    destruct (Z.ltb_spec 0 k); simpl; [|discriminate].
    destruct (len x =? flat_d ix); [|discriminate].
    destruct (Top ix x k ltac:(lia) Hle) as [L ->].
    intros [= <- <-]. unfold len. rewrite !List.length_map, L. lia.
  - intros ix q k D I Hle. unfold flat_search.
    destruct q as [|x [|? ?]]; try discriminate.
    destruct (Z.ltb_spec 0 k); simpl; [|discriminate].
    destruct (len x =? flat_d ix); [|discriminate].
    destruct (Top ix x k ltac:(lia) Hle) as [L ->].
    intros [= <- _]. apply map_fst_sorted, firstn_sorted,
      sort_by_distance_sorted.
  - intros ix q k D I Hle. unfold flat_search.
    destruct q as [|x [|? ?]]; try discriminate.
    destruct (Z.ltb_spec 0 k); simpl; [|discriminate].
    destruct (len x =? flat_d ix); [|discriminate].
    destruct (Top ix x k ltac:(lia) Hle) as [L ->].
    intros [= <- _]. apply List.Forall_forall. intros d Hd.
    apply List.in_map_iff in Hd. destruct Hd as [[d' i] [<- Hx]].
    apply firstn_incl, sort_by_distance_incl in Hx.
    apply List.in_combine_l in Hx.
    apply List.in_map_iff in Hx. destruct Hx as [y [<- _]].
    apply l2_sqr_nonneg.
Qed.

End FlatL2Proofs.

(* ===================================================================== *)
(** * Properties of the vector store *)
(* ===================================================================== *)

Module VectorStoreProofs.
Import Py PyFacts VectorStore.

(** ** The similarity score *)

Lemma similarity_range d :
  (0 <= d)%Q -> (0 < 1 / (1 + d))%Q /\ (1 / (1 + d) <= 1)%Q.
Proof.
  intros Hd. assert (0 < 1 + d)%Q by lra. split.
  - apply Qlt_shift_div_l; [assumption | lra].
  - apply Qle_shift_div_r; [assumption | lra].
Qed.

Lemma similarity_antitone d1 d2 :
  (0 <= d1)%Q -> (d1 <= d2)%Q -> (1 / (1 + d2) <= 1 / (1 + d1))%Q.
Proof.
  intros H1 H2.
  assert (P1 : (0 < 1 + d1)%Q) by lra.
  assert (P2 : (0 < 1 + d2)%Q) by lra.
  apply Qle_shift_div_r; [exact P2|].
  apply Qle_trans with ((1 + d2) / (1 + d1))%Q.
  - apply Qle_shift_div_l; [exact P1 | lra].
  - unfold Qdiv. ring_simplify. apply Qle_refl.
Qed.

Section Retrieval.

Context {F : Faiss} {World : Type}.
Variable embed_content : task_type -> str -> M World vec.

Abbreviation search := (search embed_content).

Lemma getitem_in_range {A} (l : list A) (i : Z) :
  0 <= i -> getitem l i = l !! Z.to_nat i.
Proof.
  intros Hi. unfold getitem. destruct (Z.ltb_spec i 0); [lia | reflexivity].
Qed.

(** The loop of [search] never raises: whatever pairs the library
    answers, it returns the results it had, followed by what each pair
    contributes. *)
Lemma collect_results_joined (s : VectorStore) pairs :
  forall results,
    collect_results s pairs results
    = Some (results ++ List.flat_map (joined s) pairs).
Proof.
  induction pairs as [|[distance idx] rest IH]; intros results; simpl.
  - now rewrite List.app_nil_r.
  - destruct (Z.leb_spec 0 idx) as [Hlo|Hlo]; simpl.
    + destruct (Z.ltb_spec idx (len (texts s))) as [Hhi|Hhi].
      * rewrite getitem_in_range by exact Hlo.
        destruct (lookup_lt_is_Some_2 (texts s) (Z.to_nat idx)) as [text Ht].
        { unfold len in Hhi. lia. }
        rewrite Ht.
        destruct (Z.ltb_spec idx (len (metadata s))) as [Hm|Hm].
        -- rewrite getitem_in_range by exact Hlo.
           destruct (lookup_lt_is_Some_2 (metadata s) (Z.to_nat idx))
             as [m Hmd].
           { unfold len in Hm. lia. }
           rewrite Hmd. simpl. rewrite IH.
           now rewrite <- List.app_assoc.
        -- rewrite (lookup_ge_None_2 (metadata s) (Z.to_nat idx))
             by (unfold len in Hm; lia).
           simpl. rewrite IH. now rewrite <- List.app_assoc.
      * rewrite (lookup_ge_None_2 (texts s) (Z.to_nat idx))
          by (unfold len in Hhi; lia).
        simpl. apply IH.
    + apply IH.
Qed.

Lemma joined_length s p : (List.length (joined s p) <= 1)%nat.
Proof.
  destruct p as [d idx]. unfold joined.
  destruct (0 <=? idx); [|simpl; lia].
  destruct (texts s !! Z.to_nat idx); simpl; lia.
Qed.

Lemma flat_map_joined_length s pairs :
  (List.length (List.flat_map (joined s) pairs) <= List.length pairs)%nat.
Proof.
  induction pairs as [|p rest IH]; simpl; [lia|].
  rewrite List.length_app. pose proof (joined_length s p). lia.
Qed.

Lemma joined_similarity s p r :
  In r (joined s p) -> similarity_of r = (1 / (1 + fst p))%Q.
Proof.
  destruct p as [d idx]. unfold joined.
  destruct (0 <=? idx); [|intros []].
  destruct (texts s !! Z.to_nat idx); [|intros []].
  intros [<-|[]]. reflexivity.
Qed.

Lemma flat_map_joined_sorted s pairs :
  StronglySorted (fun a b : Q * Z => (fst a <= fst b)%Q) pairs ->
  Forall (fun p : Q * Z => (0 <= fst p)%Q) pairs ->
  StronglySorted by_similarity_desc (List.flat_map (joined s) pairs).
Proof.
  induction 1 as [|p rest S IH Fa]; intros Nn; simpl; [constructor|].
  inversion Nn as [|? ? Hp Hrest]; subst.
  specialize (IH Hrest).
  destruct (joined s p) as [|r [|? ?]] eqn:J.
  - exact IH.
  - simpl. constructor; [exact IH|].
    apply List.Forall_forall. intros r' Hr'.
    apply List.in_flat_map in Hr'. destruct Hr' as [p' [Hp' Hr']].
    unfold by_similarity_desc.
    rewrite (joined_similarity s p' r' Hr').
    rewrite (joined_similarity s p r) by (rewrite J; now left).
    rewrite List.Forall_forall in Fa.
    apply similarity_antitone; [exact Hp | now apply Fa].
  - pose proof (joined_length s p) as L. rewrite J in L. simpl in L. lia.
Qed.

Lemma combine_sorted (D : list Q) :
  forall I : list Z,
    StronglySorted Qle D ->
    StronglySorted (fun a b : Q * Z => (fst a <= fst b)%Q) (List.combine D I).
Proof.
  induction D as [|d D IH]; intros [|i I] S; simpl; try constructor.
  - apply IH. now inversion S.
  - inversion S as [|? ? _ Fa]; subst.
    rewrite List.Forall_forall in *. intros [d' i'] Hin.
    apply List.in_combine_l in Hin. simpl. now apply Fa.
Qed.

Lemma combine_nonneg (D : list Q) (I : list Z) :
  Forall (fun d => (0 <= d)%Q) D ->
  Forall (fun p : Q * Z => (0 <= fst p)%Q) (List.combine D I).
Proof.
  intros Fa. rewrite List.Forall_forall in *. intros [d i] Hin.
  apply List.in_combine_l in Hin. simpl. now apply Fa.
Qed.

(** C1: [search] returns at most [min(k, N)] results, [N] the number of
    vectors in the index; every similarity lies in (0, 1]; the results are
    in descending order of similarity; and on an empty index the result
    is the empty list. *)
Theorem search_bounded_and_ordered :
  forall (L : FaissLaws F) (s : VectorStore) (query : str) (k : Z)
         (w : World),
    let results := fst (search s query k w) in
    (0 <= k -> len results <= Z.min k (ntotal (index s))) /\
    Forall (fun r => (0 < similarity_of r)%Q /\ (similarity_of r <= 1)%Q)
           results /\
    StronglySorted by_similarity_desc results /\
    (ntotal (index s) = 0 -> results = []).
Proof.
  intros L s query k w results.
  pose proof (ntotal_nonneg (index s)) as Hn.
  assert (Empty : forall r : list result,
             r = [] ->
             (0 <= k -> len r <= Z.min k (ntotal (index s))) /\
             Forall (fun r => (0 < similarity_of r)%Q
                              /\ (similarity_of r <= 1)%Q) r /\
             StronglySorted by_similarity_desc r).
  { intros r ->. split; [unfold len; simpl; lia|].
    split; constructor. }
  unfold results, VectorStore.search.
  destruct (Z.eqb_spec (ntotal (index s)) 0) as [Hz|Hnz].
  { simpl. destruct (Empty [] eq_refl) as (A & B & C). auto. }
  assert (forall r : list result,
             (0 <= k -> len r <= Z.min k (ntotal (index s))) /\
             Forall (fun r => (0 < similarity_of r)%Q
                              /\ (similarity_of r <= 1)%Q) r /\
             StronglySorted by_similarity_desc r ->
             (0 <= k -> len r <= Z.min k (ntotal (index s))) /\
             Forall (fun r => (0 < similarity_of r)%Q
                              /\ (similarity_of r <= 1)%Q) r /\
             StronglySorted by_similarity_desc r /\
             (ntotal (index s) = 0 -> r = [])) as Wrap.
  { intros r (A & B & C). repeat split; auto. intros; contradiction. }
  destruct (embed_content retrieval_query query w) as [[embedding|] w'];
    simpl; [|apply Wrap, Empty; reflexivity].
  destruct (index_search (index s) [embedding]
                         (Z.min k (ntotal (index s))))
    as [[D I]|] eqn:E; simpl; [|apply Wrap, Empty; reflexivity].
  rewrite collect_results_joined. simpl. apply Wrap.
  assert (Hle : Z.min k (ntotal (index s)) <= ntotal (index s)) by lia.
  destruct (search_shape _ _ _ _ _ Hle E) as [LD LI].
  pose proof (search_ascending _ _ _ _ _ Hle E) as Asc.
  pose proof (search_nonneg _ _ _ _ _ Hle E) as Nn.
  split; [|split].
  - intros _.
    pose proof (flat_map_joined_length s (List.combine D I)) as B.
    rewrite List.length_combine in B. unfold len in *. lia.
  - apply List.Forall_forall. intros r Hr.
    apply List.in_flat_map in Hr. destruct Hr as [[d i] [Hp Hr]].
    rewrite (joined_similarity s (d, i) r Hr). simpl.
    apply similarity_range.
    apply List.in_combine_l in Hp.
    rewrite List.Forall_forall in Nn. now apply Nn.
  - apply flat_map_joined_sorted;
      [now apply combine_sorted | now apply combine_nonneg].
Qed.

(** C10: [search] does not raise when the offsets of the library do not
    fit the arrays.  Its loop returns for every list of pairs; an offset
    outside [texts] contributes nothing, so there may be fewer results
    than pairs; an offset inside [texts] but past the end of [metadata]
    contributes the text with the empty metadata object. *)
Theorem search_tolerates_offset_mismatch :
  forall (s : VectorStore) (query : str) (k : Z) (w w' : World)
         (embedding : vec) (D : list Q) (I : list Z),
    ntotal (index s) <> 0 ->
    embed_content retrieval_query query w = (Some embedding, w') ->
    index_search (index s) [embedding] (Z.min k (ntotal (index s)))
      = Some (D, I) ->
    collect_results s (List.combine D I) []
      = Some (List.flat_map (joined s) (List.combine D I)) /\
    search s query k w
      = (List.flat_map (joined s) (List.combine D I), w') /\
    len (fst (search s query k w)) <= len (List.combine D I) /\
    (forall d idx,
        idx < 0 \/ len (texts s) <= idx -> joined s (d, idx) = []) /\
    (forall d idx,
        0 <= idx < len (texts s) -> len (metadata s) <= idx ->
        exists text,
          getitem (texts s) idx = Some text /\
          joined s (d, idx) = [(text, (1 / (1 + d))%Q, ∅)]) /\
    (forall d idx,
        0 <= idx < len (texts s) -> idx < len (metadata s) ->
        exists text m,
          getitem (texts s) idx = Some text /\
          getitem (metadata s) idx = Some m /\
          joined s (d, idx) = [(text, (1 / (1 + d))%Q, m)]).
Proof.
  intros s query k w w' embedding D I Hn He Hs.
  assert (S : search s query k w
              = (List.flat_map (joined s) (List.combine D I), w')).
  { unfold VectorStore.search.
    destruct (Z.eqb_spec (ntotal (index s)) 0); [contradiction|].
    rewrite He, Hs, collect_results_joined. reflexivity. }
  split; [apply (collect_results_joined s _ [])|].
  split; [exact S|]. split; [|split; [|split]].
  - rewrite S. simpl. unfold len.
    pose proof (flat_map_joined_length s (List.combine D I)). lia.
  - intros d idx [Hlo|Hhi]; unfold joined.
    + destruct (Z.leb_spec 0 idx); [lia | reflexivity].
    + destruct (0 <=? idx); [|reflexivity].
      rewrite (lookup_ge_None_2 (texts s) (Z.to_nat idx))
        by (unfold len in Hhi; lia).
      reflexivity.
  - intros d idx [Hlo Hhi] Hm.
    destruct (lookup_lt_is_Some_2 (texts s) (Z.to_nat idx)) as [text Ht].
    { unfold len in Hhi. lia. }
    exists text. rewrite getitem_in_range by exact Hlo.
    split; [exact Ht|]. unfold joined.
    destruct (Z.leb_spec 0 idx); [|lia]. rewrite Ht.
    rewrite (lookup_ge_None_2 (metadata s) (Z.to_nat idx))
      by (unfold len in Hm; lia).
    reflexivity.
  - intros d idx [Hlo Hhi] Hm.
    destruct (lookup_lt_is_Some_2 (texts s) (Z.to_nat idx)) as [text Ht].
    { unfold len in Hhi. lia. }
    destruct (lookup_lt_is_Some_2 (metadata s) (Z.to_nat idx)) as [m Hmd].
    { unfold len in Hm. lia. }
    exists text, m. rewrite !getitem_in_range by exact Hlo.
    split; [exact Ht|]. split; [exact Hmd|]. unfold joined.
    destruct (Z.leb_spec 0 idx); [|lia]. rewrite Ht, Hmd. reflexivity.
Qed.

End Retrieval.

(** ** The embedding step *)

Section Embedding.

Context {F : Faiss} {World : Type}.
Variable embed_content : task_type -> str -> M World vec.

Abbreviation embed_all := (embed_all embed_content).
Abbreviation embed_batch := (embed_batch embed_content).
Abbreviation embed_batches := (embed_batches embed_content).
Abbreviation _get_embeddings := (_get_embeddings embed_content).
Abbreviation add_documents := (add_documents embed_content).

Lemma embed_batch_all batch :
  forall acc w,
    embed_batch batch acc w
    = (do vs <- embed_all batch; ret (acc ++ vs)) w.
Proof.
  induction batch as [|text rest IH]; intros acc w; simpl.
  - unfold bind, ret. now rewrite List.app_nil_r.
  - unfold bind, ret.
    destruct (embed_content retrieval_document text w) as [[v|] w1];
      [|reflexivity].
    rewrite IH. unfold bind, ret.
    destruct (embed_all rest w1) as [[vs|] w2]; [|reflexivity].
    now rewrite <- List.app_assoc.
Qed.

Lemma embed_all_app a b w :
  embed_all (a ++ b) w
  = (do x <- embed_all a; do y <- embed_all b; ret (x ++ y)) w.
Proof.
  revert w. induction a as [|text rest IH]; intros w; simpl.
  - unfold bind, ret. simpl.
    destruct (embed_all b w) as [[y|] w1]; reflexivity.
  - unfold bind, ret.
    destruct (embed_content retrieval_document text w) as [[v|] w1];
      [|reflexivity].
    rewrite IH. unfold bind, ret.
    destruct (embed_all rest w1) as [[x|] w2]; [|reflexivity].
    destruct (embed_all b w2) as [[y|] w3]; reflexivity.
Qed.

Lemma embed_batches_all starts texts_ :
  forall acc w,
    embed_batches starts texts_ acc w
    = (do vs <- embed_all
                  (List.concat
                     (List.map (fun i => slice texts_ i (i + batch_size))
                               starts));
       ret (acc ++ vs)) w.
Proof.
  induction starts as [|i starts IH]; intros acc w; simpl.
  - unfold bind, ret. now rewrite List.app_nil_r.
  - unfold bind. rewrite embed_batch_all, embed_all_app. unfold bind, ret.
    destruct (embed_all (slice texts_ i (i + batch_size)) w)
      as [[x|] w1]; [|reflexivity].
    simpl. rewrite IH. unfold bind, ret.
    destruct (embed_all _ w1) as [[y|] w2]; [|reflexivity].
    now rewrite <- List.app_assoc.
Qed.

(** The batches are the texts, in order. *)
Lemma batches_concat (texts_ : list str) :
  List.concat
    (List.map (fun i => slice texts_ i (i + batch_size))
              (range 0 (len texts_) batch_size))
  = texts_.
Proof.
  unfold range, batch_size. rewrite List.map_map.
  rewrite (List.map_ext _ (fun j => firstn 100 (skipn (100 * j) texts_))).
  - rewrite (windows_concat texts_ 100 ltac:(lia)); [reflexivity|].
    unfold len.
    assert (Z.of_nat (List.length texts_)
            <= 100 * ((Z.of_nat (List.length texts_) - 0 + 100 - 1) / 100)).
    { Z.div_mod_to_equations. lia. }
    lia.
  - intros j. rewrite slice_firstn_skipn by lia.
    f_equal; [lia | f_equal; lia].
Qed.

Lemma get_embeddings_try_all texts_ w :
  get_embeddings_try embed_content texts_ w
  = (do vs <- embed_all texts_; fun w => (np_array vs, w)) w.
Proof.
  unfold get_embeddings_try, bind. rewrite embed_batches_all.
  rewrite batches_concat. unfold bind, ret.
  destruct (embed_all texts_ w) as [[vs|] w1]; reflexivity.
Qed.

Lemma embed_all_length texts_ :
  forall w vs w',
    embed_all texts_ w = (Some vs, w') ->
    List.length vs = List.length texts_.
Proof.
  induction texts_ as [|text rest IH]; intros w vs w'; simpl.
  - unfold ret. now intros [= <- _].
  - unfold bind, ret.
    destruct (embed_content retrieval_document text w) as [[v|] w1];
      [|discriminate].
    destruct (embed_all rest w1) as [[x|] w2] eqn:E; [|discriminate].
    intros [= <- _]. simpl. f_equal. eapply IH. exact E.
Qed.

Lemma embed_all_raises texts_ w :
  call_raises embed_content texts_ w -> fst (embed_all texts_ w) = None.
Proof.
  intros (before & text & after & vs & w1 & -> & Hb & Hf).
  rewrite embed_all_app. unfold bind. rewrite Hb. simpl.
  unfold bind.
  destruct (embed_content retrieval_document text w1) as [[v|] w2];
    [discriminate | reflexivity].
Qed.

Lemma np_array_rows rows a : np_array rows = Some a -> a = rows.
Proof.
  unfold np_array. destruct rows as [|r rest]; [now intros [= <-]|].
  destruct (forallb _ _); [now intros [= <-] | discriminate].
Qed.

(** When the embedding step gives a non-empty array, it has one row per
    text. *)
Lemma get_embeddings_rows texts_ w :
  size (fst (_get_embeddings texts_ w)) <> 0 ->
  len (fst (_get_embeddings texts_ w)) = len texts_.
Proof.
  unfold VectorStore._get_embeddings. rewrite get_embeddings_try_all.
  unfold bind. destruct (embed_all texts_ w) as [[vs|] w1] eqn:E;
    [|simpl; congruence].
  destruct (np_array vs) as [a|] eqn:N; [|simpl; congruence].
  simpl. intros _. apply np_array_rows in N. subst a.
  unfold len. f_equal. eapply embed_all_length. exact E.
Qed.

(** C7: when a call of the embedding service raises, the embedding step
    returns the empty array and [add_documents] returns false with the
    store as it was; [add_documents] also returns false, store unchanged,
    for an empty list of texts and whenever the embedding step produced
    an array without entries. *)
Theorem failed_embedding_adds_nothing :
  forall (s : VectorStore) (texts_ : list str)
         (metadata_ : option (list dict)) (w : World),
    (call_raises embed_content texts_ w ->
     fst (_get_embeddings texts_ w) = [] /\
     fst (add_documents s texts_ metadata_ w) = (false, s)) /\
    fst (add_documents s [] metadata_ w) = (false, s) /\
    (size (fst (_get_embeddings texts_ w)) = 0 ->
     fst (add_documents s texts_ metadata_ w) = (false, s)).
Proof.
  intros s texts_ metadata_ w.
  assert (Z : size (fst (_get_embeddings texts_ w)) = 0 ->
              fst (add_documents s texts_ metadata_ w) = (false, s)).
  { intros Hz. unfold VectorStore.add_documents.
    destruct (truthy texts_); simpl; [|reflexivity].
    destruct (_get_embeddings texts_ w) as [a w1]. simpl in Hz.
    rewrite Hz. reflexivity. }
  split; [|split; [reflexivity | exact Z]].
  intros Hr.
  assert (E : fst (_get_embeddings texts_ w) = []).
  { unfold VectorStore._get_embeddings. rewrite get_embeddings_try_all.
    unfold bind. pose proof (embed_all_raises texts_ w Hr) as N.
    destruct (embed_all texts_ w) as [[vs|] w1]; [discriminate|].
    reflexivity. }
  split; [exact E|]. apply Z. now rewrite E.
Qed.

End Embedding.

(** ** The parallel arrays *)

Section Invariant.

Context {F : Faiss} {L : FaissLaws F} {World : Type}.
Variable embed_content : task_type -> str -> M World vec.

Abbreviation run := (run embed_content).
Abbreviation run_all := (run_all embed_content).

Lemma default_metadata_length (s : VectorStore) n :
  List.length (default_metadata s n) = n.
Proof. unfold default_metadata. now rewrite List.length_map, List.length_seq. Qed.

Lemma init_consistent : consistent init.
Proof using L. split; simpl; [apply ntotal_IndexFlatL2 | reflexivity]. Qed.

Lemma clear_consistent s : consistent (clear s).
Proof using L. split; simpl; [apply ntotal_IndexFlatL2 | reflexivity]. Qed.

Lemma add_documents_consistent s texts_ metadata_ w :
  op_ok (OpAddDocuments texts_ metadata_) ->
  consistent s ->
  consistent (snd (fst (add_documents embed_content s texts_ metadata_ w))).
Proof using L.
  intros Hok [Hi Hm]. unfold add_documents.
  destruct (truthy texts_); simpl; [|now split].
  pose proof (get_embeddings_rows embed_content texts_ w) as R.
  destruct (_get_embeddings embed_content texts_ w) as [a w1].
  simpl in R.
  destruct (Z.eqb_spec (size a) 0) as [|Hsz]; simpl; [now split|].
  specialize (R Hsz).
  destruct (index_add (index s) a) as [ix|] eqn:A; simpl; [|now split].
  apply ntotal_add in A.
  assert (Hmd : len (match metadata_ with
                     | Some ((_ :: _) as m) => metadata s ++ m
                     | _ => metadata s
                            ++ default_metadata s (List.length texts_)
                     end) = len (metadata s) + len texts_).
  { unfold op_ok in Hok.
    destruct metadata_ as [[|d m]|]; rewrite len_app; unfold len;
      [rewrite default_metadata_length | rewrite Hok
       | rewrite default_metadata_length]; reflexivity. }
  split; simpl.
  - rewrite A, len_app. lia.
  - rewrite Hmd, len_app. lia.
Qed.

Lemma run_consistent o s w :
  op_ok o -> consistent s -> consistent (fst (run o s w)).
Proof using L.
  intros Hok Hc. destruct o as [t m|q k|]; simpl.
  - pose proof (add_documents_consistent s t m w Hok Hc) as C.
    destruct (add_documents embed_content s t m w) as [[ok s'] w'].
    exact C.
  - exact Hc.
  - apply clear_consistent.
Qed.

(** C5: every operation of the store, metadata omitted or as long as the
    texts, keeps the number of vectors of the index, the length of
    [texts] and the length of [metadata] equal; so does every sequence of
    operations on a new store, and [get_stats] then reports
    [total_chunks] equal to [index_size]. *)
Theorem arrays_stay_parallel :
  (forall (o : op) (s : VectorStore) (w : World),
      op_ok o -> consistent s ->
      consistent (fst (run o s w)) /\
      total_chunks (get_stats (fst (run o s w)))
      = index_size (get_stats (fst (run o s w)))) /\
  (forall (ops : list op) (w : World),
      Forall op_ok ops ->
      consistent (fst (run_all ops init w)) /\
      total_chunks (get_stats (fst (run_all ops init w)))
      = index_size (get_stats (fst (run_all ops init w)))).
Proof using L.
  assert (St : forall s, consistent s ->
                         total_chunks (get_stats s) = index_size (get_stats s)).
  { intros s [Hi _]. simpl. congruence. }
  split.
  - intros o s w Hok Hc. pose proof (run_consistent o s w Hok Hc). auto.
  - assert (G : forall ops s w,
               Forall op_ok ops -> consistent s ->
               consistent (fst (run_all ops s w))).
    { induction ops as [|o ops IH]; intros s w Hok Hc; simpl; [exact Hc|].
      inversion Hok as [|? ? Ho Hops]; subst.
      pose proof (run_consistent o s w Ho Hc) as C.
      destruct (run o s w) as [s' w']. simpl in C. now apply IH. }
    intros ops w Hok. pose proof (G ops init w Hok init_consistent). auto.
Qed.

End Invariant.

(** ** Persistence *)

Section Persistence.

Context {F : Faiss}.



(** On a bare file name [os.path.dirname] is empty, [os.makedirs] raises
    and [save] returns false without writing. *)
Lemma save_bare_name (s : VectorStore) fs :
  save s (lit "store") fs = (false, fs).
Proof. reflexivity. Qed.


End Persistence.

(** ** The properties on the flat index *)

Import FlatL2 FlatL2Proofs Demo.

(** One neighbour asked of the demo store, which holds two chunks. *)
Lemma search_bounded_and_ordered_witness :
  let results := fst (search (F := flat_faiss) service store (lit "cat") 1 tt) in
  (0 <= 1 -> len results <= Z.min 1 (ntotal (index store))) /\
  Forall (fun r => (0 < similarity_of r)%Q /\ (similarity_of r <= 1)%Q)
         results /\
  StronglySorted by_similarity_desc results /\
  (ntotal (index store) = 0 -> results = []).
Proof.
  exact (search_bounded_and_ordered (F := flat_faiss) service flat_laws
           store (lit "cat") 1 tt).
Defined.

(** Two neighbours asked of the store with two vectors, one text and no
    metadata: the offset 1 is dropped, the offset 0 comes with the empty
    metadata. *)
Lemma search_tolerates_offset_mismatch_witness :
  exists D I,
    index_search (Faiss := flat_faiss) (index skewed) [[1%Q; 0%Q]]
                 (Z.min 2 (ntotal (index skewed))) = Some (D, I) /\
    len (List.combine D I) = 2 /\
    search (F := flat_faiss) service2 skewed (lit "c") 2 tt
    = (List.flat_map (joined skewed) (List.combine D I), tt) /\
    List.flat_map (joined skewed) (List.combine D I)
    = [(cat, (1 / (1 + 0))%Q, ∅)].
Proof.
  eexists. eexists. split; [vm_compute; reflexivity|].
  split; [reflexivity|].
  split; [|reflexivity].
  refine (proj1 (proj2 (search_tolerates_offset_mismatch
                          (F := flat_faiss) service2 skewed (lit "c") 2 tt tt
                          [1%Q; 0%Q] _ _ _ _ _))).
  - intros H. vm_compute in H. discriminate H.
  - reflexivity.
  - vm_compute. reflexivity.
Defined.

(** The second of three calls raises: nothing is added to the store. *)
Lemma failed_embedding_adds_nothing_witness :
  call_raises service [cat; []; dog] tt /\
  fst (_get_embeddings service [cat; []; dog] tt) = [] /\
  fst (add_documents (F := flat_faiss) service store [cat; []; dog] None tt)
  = (false, store).
Proof.
  assert (H : call_raises service [cat; []; dog] tt).
  { exists [cat], [], [dog], [embedding_of cat], tt.
    repeat split; reflexivity. }
  split; [exact H|].
  exact (proj1 (failed_embedding_adds_nothing (F := flat_faiss) service
                  store [cat; []; dog] None tt) H).
Defined.

(** A run of additions, a search and a clear on a new store. *)
Lemma arrays_stay_parallel_witness :
  Forall op_ok script /\
  consistent (fst (run_all (F := flat_faiss) service script init tt)) /\
  total_chunks (get_stats (fst (run_all (F := flat_faiss) service script init tt)))
  = index_size (get_stats (fst (run_all (F := flat_faiss) service script init tt))).
Proof.
  assert (H : Forall op_ok script).
  { repeat constructor. }
  split; [exact H|].
  exact (proj2 (arrays_stay_parallel (F := flat_faiss) (L := flat_laws)
                  service) script tt H).
Defined.


End VectorStoreProofs.

(* ===================================================================== *)
(** * Properties of the answer generator *)
(* ===================================================================== *)

Module ChatHandlerProofs.
Import Py PyFacts VectorStore ChatHandler.

Lemma slice_top {A} (l : list A) (n : Z) :
  0 <= n -> slice l 0 n = firstn (Z.to_nat n) l.
Proof.
  intros Hn. rewrite slice_firstn_skipn by lia.
  simpl. now rewrite Z.sub_0_r.
Qed.

Section Prompt.

Context {World : Type}.
Variable format_2f : Q -> str.
Variable generate_content : str -> M World str.

Abbreviation _prepare_context := (_prepare_context format_2f).
Abbreviation context_parts := (context_parts format_2f).
Abbreviation generate_response :=
  (generate_response format_2f generate_content).






End Prompt.

End ChatHandlerProofs.

(* ===================================================================== *)
(** * More facts about trimming and slicing *)
(* ===================================================================== *)

Module TextFacts.
Import Py PyFacts.

Lemma rstrip_idem t : rstrip (rstrip t) = rstrip t.
Proof.
  induction t as [|c r IH]; simpl; [reflexivity|].
  destruct (rstrip r) as [|y r'] eqn:R.
  - destruct (is_space c) eqn:S; simpl; [reflexivity | now rewrite S].
  - change (rstrip (c :: y :: r')) with
      (match rstrip (y :: r') with
       | [] => if is_space c then [] else [c]
       | r'' => c :: r''
       end).
    rewrite IH. reflexivity.
Qed.

Lemma lstrip_head t c r : lstrip t = c :: r -> is_space c = false.
Proof.
  induction t as [|x t IH]; simpl; [discriminate|].
  destruct (is_space x) eqn:S; [exact IH | now intros [= <- _]].
Qed.

Lemma lstrip_fixed c r : is_space c = false -> lstrip (c :: r) = c :: r.
Proof. intros H. simpl. now rewrite H. Qed.

Lemma rstrip_keeps_head c r :
  is_space c = false -> exists r', rstrip (c :: r) = c :: r'.
Proof.
  intros H. simpl. destruct (rstrip r) as [|y r'']; [|eauto].
  rewrite H. eauto.
Qed.

(** Trimming twice is trimming once. *)
Lemma strip_idem t : strip (strip t) = strip t.
Proof.
  unfold strip. destruct (lstrip t) as [|c r] eqn:L; [reflexivity|].
  pose proof (lstrip_head t c r L) as Hc.
  destruct (rstrip_keeps_head c r Hc) as [r' E]. rewrite E.
  rewrite lstrip_fixed by exact Hc. rewrite <- E. apply rstrip_idem.
Qed.

Lemma lstrip_all_space t :
  Forall (fun c => is_space c = true) t -> lstrip t = [].
Proof.
  induction 1 as [|c r Hc _ IH]; simpl; [reflexivity | now rewrite Hc].
Qed.

(** A text trims to nothing exactly when it is whitespace throughout. *)
Lemma strip_nil_iff t :
  strip t = [] <-> Forall (fun c => is_space c = true) t.
Proof.
  split.
  - intros E. destruct (strip_split t) as (sp1 & sp2 & S & F1 & F2).
    rewrite E in S. simpl in S. rewrite S.
    apply List.Forall_app. now split.
  - intros Fa. unfold strip. now rewrite lstrip_all_space.
Qed.

Lemma strip_length t : (List.length (strip t) <= List.length t)%nat.
Proof.
  destruct (strip_split t) as (sp1 & sp2 & S & _ & _).
  rewrite S at 2. rewrite !List.length_app. lia.
Qed.

Lemma re_sub_runs_length cls rep t :
  (List.length (re_sub_runs cls rep t) <= List.length t)%nat.
Proof.
  induction t as [|c r IH]; simpl; [lia|].
  destruct (cls c).
  - destruct r as [|c' r']; [simpl; lia|].
    destruct (cls c'); simpl in *; lia.
  - simpl. lia.
Qed.

(** A slice with bounds that are not negative is a segment of the text. *)
Lemma slice_occurs {A} (t : list A) a b :
  0 <= a -> 0 <= b ->
  exists pre post, t = pre ++ slice t a b ++ post.
Proof.
  intros Ha Hb. rewrite slice_nonneg by assumption.
  set (i := Z.to_nat (Z.min a (len t))).
  set (n := Z.to_nat (Z.min b (len t) - Z.min a (len t))).
  exists (firstn i t), (skipn n (skipn i t)).
  now rewrite List.firstn_skipn, List.firstn_skipn.
Qed.

Lemma slice_length_nonneg {A} (t : list A) a b :
  0 <= a -> 0 <= b -> len (slice t a b) <= Z.max 0 (b - a).
Proof.
  intros Ha Hb. pose proof (slice_length_le t a b) as L.
  pose proof (len_nonneg t).
  rewrite !clamp_nonneg_arg in L by assumption. lia.
Qed.

End TextFacts.

(* ===================================================================== *)
(** * Further properties of the chunker *)
(* ===================================================================== *)

Module ChunkerExtras.
Import Py PyFacts TextFacts DocumentProcessor ChunkerProofs.

Section Normal.

Variable unicode_alnum : char -> bool.
Abbreviation clean_text := (clean_text unicode_alnum).
Abbreviation allowed := (allowed unicode_alnum).

Lemma clean_text_trimmed text : strip (clean_text text) = clean_text text.
Proof.
  unfold DocumentProcessor.clean_text.
  destruct (truthy text); simpl; [apply strip_idem | reflexivity].
Qed.

(** The normalised text is on the allow-list throughout, its only
    whitespace is the space U+0020, it has no whitespace at either end,
    and it is no longer than the text it was made from. *)
Theorem clean_text_normal_form :
  forall text : str,
    Forall (fun c => allowed c = true) (clean_text text) /\
    Forall (fun c => is_space c = true -> c = SP) (clean_text text) /\
    strip (clean_text text) = clean_text text /\
    len (clean_text text) <= len text.
Proof.
  intros text. split; [|split; [|split]].
  - apply List.Forall_forall. intros c H.
    now apply clean_text_incl_filtered in H.
  - apply List.Forall_forall. intros c H S.
    apply clean_text_incl_filtered in H. destruct H as [_ [H|H]]; congruence.
  - apply clean_text_trimmed.
  - unfold DocumentProcessor.clean_text, len.
    destruct (truthy text); simpl; [|lia].
    pose proof (strip_length
                  (re_sub_delete (fun c => negb (allowed c))
                     (re_sub_runs is_space SP
                        (re_sub_runs is_newline NL text)))) as L1.
    unfold re_sub_delete in *.
    pose proof (List.filter_length_le
                  (fun c => negb (negb (allowed c)))
                  (re_sub_runs is_space SP
                     (re_sub_runs is_newline NL text))) as L2.
    pose proof (re_sub_runs_length is_space SP
                  (re_sub_runs is_newline NL text)) as L3.
    pose proof (re_sub_runs_length is_newline NL text) as L4.
    lia.
Qed.

End Normal.

Section Shape.

Variables (text : str) (chunk_size overlap : Z).
Hypothesis size_pos : 1 <= chunk_size.
Hypothesis overlap_small : 0 <= overlap <= chunk_size / 2.

(** What every chunk cut from [text] is: trimmed, at most [chunk_size]
    long, and a segment of [text]. *)
Abbreviation well_cut :=
  (fun c : str =>
     strip c = c /\ len c <= chunk_size /\
     exists pre post, text = pre ++ c ++ post).

Lemma chunk_body_well_cut start chunks :
  0 <= start ->
  Forall well_cut chunks ->
  Forall well_cut (snd (chunk_body text chunk_size overlap start chunks)).
Proof using size_pos.
  clear overlap_small.
  intros Hs Fa. unfold chunk_body. simpl.
  pose proof (window_end_range text chunk_size size_pos start Hs) as W.
  assert (0 <= chunk_size / 2) by (apply Z.div_pos; lia).
  set (e := window_end text chunk_size start) in *.
  destruct (truthy (strip (slice text start e))); [|exact Fa].
  apply List.Forall_app. split; [exact Fa|]. constructor; [|constructor].
  split; [apply strip_idem|]. split.
  - pose proof (strip_length (slice text start e)) as L1.
    pose proof (slice_length_nonneg text start e Hs ltac:(lia)) as L2.
    unfold len in *. lia.
  - destruct (slice_occurs text start e Hs ltac:(lia)) as (pre & post & T).
    destruct (strip_split (slice text start e)) as (sp1 & sp2 & S & _ & _).
    exists (pre ++ sp1), (sp2 ++ post).
    rewrite T at 1. rewrite S at 1. now rewrite <- !List.app_assoc.
Qed.

Lemma chunk_loop_well_cut fuel :
  forall (start : Z) (chunks : list str) final chunks',
    0 <= start ->
    Forall well_cut chunks ->
    chunk_loop fuel text chunk_size overlap start chunks
      = Some (final, chunks') ->
    Forall well_cut chunks'.
Proof using size_pos overlap_small.
  induction fuel as [|fuel IH]; intros start chunks final chunks' Hs Fa;
    cbn [chunk_loop]; [discriminate|].
  destruct (start <? len text); [|now intros [= _ <-]].
  pose proof (chunk_body_well_cut start chunks Hs Fa) as B.
  pose proof (chunk_body_advances text chunk_size overlap size_pos
                overlap_small start chunks Hs) as Adv.
  destruct (chunk_body text chunk_size overlap start chunks) as [s' c'].
  simpl in B, Adv.
  destruct (s' >=? len text); [now intros [= _ <-]|].
  apply IH; [lia | exact B].
Qed.

(** Every pass of the loop moves [start] by at least
    [chunk_size // 2 + 1 - overlap] and adds at most one chunk. *)
Lemma chunk_loop_count fuel :
  forall (start : Z) (chunks : list str) final chunks',
    0 <= start ->
    chunk_loop fuel text chunk_size overlap start chunks
      = Some (final, chunks') ->
    (chunk_size / 2 + 1 - overlap) * (len chunks' - len chunks)
    <= Z.max 0 (len text - start + (chunk_size / 2 - overlap)).
Proof using size_pos overlap_small.
  induction fuel as [|fuel IH]; intros start chunks final chunks' Hs;
    cbn [chunk_loop]; [discriminate|].
  destruct (Z.ltb_spec start (len text)) as [Hlt|Hge];
    [|intros [= _ <-]; lia].
  pose proof (window_end_range text chunk_size size_pos start Hs) as W.
  assert (Hlen : len (snd (chunk_body text chunk_size overlap start chunks))
                 <= len chunks + 1).
  { unfold chunk_body. simpl. destruct (truthy _); [|lia].
    rewrite len_app. unfold len. simpl. lia. }
  assert (Hst : fst (chunk_body text chunk_size overlap start chunks)
                = window_end text chunk_size start - overlap)
    by reflexivity.
  destruct (chunk_body text chunk_size overlap start chunks) as [s' c'].
  simpl in Hlen, Hst.
  set (step := chunk_size / 2 + 1 - overlap) in *.
  assert (1 <= step) by (unfold step; lia).
  destruct (Z.geb_spec s' (len text)) as [Hex|Hcont].
  - intros [= _ <-]. nia.
  - intros E. apply IH in E; [|lia]. nia.
Qed.

End Shape.

Section Chunks.

Variable unicode_alnum : char -> bool.
Abbreviation clean_text := (clean_text unicode_alnum).
Abbreviation chunk_text := (chunk_text unicode_alnum).

Lemma chunk_text_well_cut (fuel : nat) (text : str) (chunk_size overlap : Z)
    (chunks : list str) :
  1 <= chunk_size ->
  0 <= overlap <= chunk_size / 2 ->
  chunk_text fuel text chunk_size overlap = Some chunks ->
  Forall (fun c =>
            strip c = c /\ len c <= chunk_size /\
            exists pre post, clean_text text = pre ++ c ++ post)
         chunks.
Proof.
  intros Hcs Hov.
  unfold DocumentProcessor.chunk_text.
  destruct (truthy text); simpl; [|intros [= <-]; constructor].
  destruct (Z.leb_spec (len (clean_text text)) chunk_size) as [Hshort|Hlong].
  - intros [= <-]. constructor; [|constructor].
    split; [apply clean_text_trimmed|].
    split; [exact Hshort|]. exists [], []. now rewrite List.app_nil_r.
  - destruct (chunk_loop fuel (clean_text text) chunk_size overlap 0 [])
      as [[final chunks']|] eqn:L; [|discriminate].
    intros [= <-].
    exact (chunk_loop_well_cut (clean_text text) chunk_size overlap Hcs Hov
             fuel 0 [] final chunks' ltac:(lia) ltac:(constructor) L).
Qed.

(** With [1 <= chunk_size] and [0 <= overlap <= chunk_size // 2], every
    chunk that [chunk_text] returns has no whitespace at either end, is at
    most [chunk_size] characters long, and is a segment of the normalised
    text. *)
Theorem chunks_are_trimmed_segments :
  forall (fuel : nat) (text : str) (chunk_size overlap : Z)
         (chunks : list str),
    1 <= chunk_size ->
    0 <= overlap <= chunk_size / 2 ->
    chunk_text fuel text chunk_size overlap = Some chunks ->
    Forall (fun c =>
              strip c = c /\ len c <= chunk_size /\
              exists pre post, clean_text text = pre ++ c ++ post)
           chunks.
Proof.
  intros fuel text cs ov chunks. apply chunk_text_well_cut.
Qed.

(** With the same bounds, the number of chunks is at most one more than
    the length of the normalised text divided by
    [chunk_size // 2 + 1 - overlap]; with the defaults, by 301. *)
Theorem chunk_count_bounded :
  forall (fuel : nat) (text : str) (chunk_size overlap : Z)
         (chunks : list str),
    1 <= chunk_size ->
    0 <= overlap <= chunk_size / 2 ->
    chunk_text fuel text chunk_size overlap = Some chunks ->
    (chunk_size / 2 + 1 - overlap) * (len chunks - 1)
    <= len (clean_text text).
Proof.
  intros fuel text cs ov chunks Hcs Hov.
  pose proof (len_nonneg (clean_text text)) as Hn.
  unfold DocumentProcessor.chunk_text.
  destruct (truthy text); simpl;
    [|intros [= <-]; unfold len at 1; simpl; lia].
  destruct (Z.leb_spec (len (clean_text text)) cs) as [Hshort|Hlong].
  - intros [= <-]. unfold len at 1. simpl. lia.
  - destruct (chunk_loop fuel (clean_text text) cs ov 0 [])
      as [[final chunks']|] eqn:L; [|discriminate].
    intros [= <-].
    pose proof (chunk_loop_count (clean_text text) cs ov Hcs Hov fuel 0 []
                  final chunks' ltac:(lia) L) as C.
    change (len (@nil str)) with 0 in C. nia.
Qed.

End Chunks.

(** Both at the defaults, on a text of 1300 letters and spaces. *)
Lemma chunks_are_trimmed_segments_witness :
  let ua := fun _ : char => false in
  let text := List.concat (List.repeat (lit "lorem ipsum dolor. ") 70) in
  exists chunks,
    chunk_text ua 10 text 1000 200 = Some chunks /\
    Forall (fun c =>
              strip c = c /\ len c <= 1000 /\
              exists pre post, clean_text ua text = pre ++ c ++ post)
           chunks.
Proof.
  intros ua text. eexists. split; [vm_compute; reflexivity|].
  apply (chunks_are_trimmed_segments ua 10 text 1000 200).
  - lia.
  - change (1000 / 2) with 500. lia.
  - vm_compute. reflexivity.
Defined.

Lemma chunk_count_bounded_witness :
  let ua := fun _ : char => false in
  let text := List.concat (List.repeat (lit "lorem ipsum dolor. ") 70) in
  exists chunks,
    chunk_text ua 10 text 1000 200 = Some chunks /\
    (1000 / 2 + 1 - 200) * (len chunks - 1) <= len (clean_text ua text).
Proof.
  intros ua text. eexists. split; [vm_compute; reflexivity|].
  apply (chunk_count_bounded ua 10 text 1000 200).
  - lia.
  - change (1000 / 2) with 500. lia.
  - vm_compute. reflexivity.
Defined.

End ChunkerExtras.

(* ===================================================================== *)
(** * Properties of the text extraction *)
(* ===================================================================== *)

Module ExtractorProofs.
Import Py PyText PyFacts TextFacts VectorStore ChatHandler Extractors.

Lemma lstrip_length t : (List.length (lstrip t) <= List.length t)%nat.
Proof.
  induction t as [|c r IH]; simpl; [lia|].
  destruct (is_space c); simpl; lia.
Qed.

Lemma rstrip_length t : (List.length (rstrip t) <= List.length t)%nat.
Proof.
  destruct (rstrip_split t) as (sp & E & _).
  rewrite E at 2. rewrite List.length_app. lia.
Qed.

(** A trimmed text that is not empty starts with a character that is not
    whitespace. *)
Lemma trimmed_head t c r :
  strip t = t -> t = c :: r -> is_space c = false.
Proof.
  intros T ->. destruct (is_space c) eqn:S; [|reflexivity]. exfalso.
  pose proof (rstrip_length (lstrip (c :: r))) as L1.
  pose proof (lstrip_length r) as L2.
  unfold strip in T. rewrite T in L1. simpl in L1. rewrite S in L1.
  simpl in L1. lia.
Qed.

Lemma space_NL : is_space NL = true.
Proof. reflexivity. Qed.

Lemma space_SP : is_space SP = true.
Proof. reflexivity. Qed.

(** ** The separator of a file name *)

Lemma split_no_sep sep t : ~ In sep t -> split sep t = [t].
Proof.
  induction t as [|c r IH]; simpl; [reflexivity|]. intros H.
  destruct (N.eqb_spec c sep) as [->|Hne]; [exfalso; apply H; now left|].
  rewrite IH by (intros I; apply H; now right). reflexivity.
Qed.

Lemma split_at_sep sep p e :
  exists h tl, split sep (p ++ sep :: e) = (h :: tl) ++ split sep e.
Proof.
  induction p as [|c p (h & tl & IH)]; simpl.
  - rewrite N.eqb_refl. exists [], []. reflexivity.
  - destruct (c =? sep)%N.
    + exists [], (h :: tl). now rewrite IH.
    + rewrite IH. simpl. exists (c :: h), tl. reflexivity.
Qed.

Lemma getitem_last {A} (l : list A) (x : A) :
  getitem (l ++ [x]) (-1) = Some x.
Proof.
  unfold getitem. rewrite len_app. change (len [x]) with 1.
  pose proof (len_nonneg l) as Hn.
  destruct (Z.ltb_spec (-1) 0); [|lia].
  destruct (Z.leb_spec 0 (-1 + (len l + 1))); [|lia].
  apply list_lookup_middle. unfold len. lia.
Qed.

Section Extraction.

Variable PdfReader : list Byte.byte -> option (list (option str)).
Variable Document : list Byte.byte -> option Docx.
Variable decode_utf8 : list Byte.byte -> option str.
Variable lower : str -> str.

Abbreviation extract_text_from_pdf := (extract_text_from_pdf PdfReader).
Abbreviation extract_text_from_docx := (extract_text_from_docx Document).
Abbreviation extract_text_from_txt := (extract_text_from_txt decode_utf8).
Abbreviation file_extension := (file_extension lower).
Abbreviation process_uploaded_file :=
  (process_uploaded_file PdfReader Document decode_utf8 lower).

(** Whatever the file and whatever the libraries answer, the text that
    [process_uploaded_file] returns has no whitespace at either end: it is
    empty or starts with a character that is not whitespace. *)
Theorem processed_text_is_trimmed :
  forall uploaded_file : option UploadedFile,
    strip (process_uploaded_file uploaded_file)
    = process_uploaded_file uploaded_file /\
    forall c r,
      process_uploaded_file uploaded_file = c :: r -> is_space c = false.
Proof.
  intros uploaded_file.
  assert (T : strip (process_uploaded_file uploaded_file)
              = process_uploaded_file uploaded_file).
  { unfold Extractors.process_uploaded_file.
    destruct uploaded_file as [f|]; [|reflexivity].
    destruct (file_extension f) as [ext|]; [|reflexivity].
    repeat case_decide; try reflexivity.
    - unfold Extractors.extract_text_from_pdf.
      destruct (PdfReader (data f)); [apply strip_idem | reflexivity].
    - unfold Extractors.extract_text_from_docx.
      destruct (Document (data f)); [apply strip_idem | reflexivity].
    - unfold Extractors.extract_text_from_txt. apply strip_idem. }
  split; [exact T|]. intros c r E. eapply trimmed_head; eauto.
Qed.

(** The file type is read from the text after the last full stop of the
    name, and from the whole name when the name has no full stop. *)
Theorem extension_is_last_segment :
  forall f : UploadedFile,
    (forall p e,
        name f = p ++ DOT :: e -> ~ In DOT e ->
        file_extension f = Some (lower e)) /\
    (~ In DOT (name f) -> file_extension f = Some (lower (name f))).
Proof.
  intros f. unfold Extractors.file_extension. split.
  - intros p e E He. rewrite E.
    destruct (split_at_sep DOT p e) as (h & tl & S). rewrite S.
    rewrite (split_no_sep DOT e He).
    now rewrite getitem_last.
  - intros H. rewrite (split_no_sep DOT (name f) H).
    change [name f] with ([] ++ [name f]). now rewrite getitem_last.
Qed.

(** ** PDF *)

Lemma pdf_pages_acc pages :
  forall i text, pdf_pages i pages text = text ++ pdf_pages i pages [].
Proof.
  induction pages as [|[t|] rest IH]; intros i text; simpl.
  - now rewrite List.app_nil_r.
  - destruct (truthy t); [|apply IH].
    rewrite IH. rewrite (IH _ (_ :: _)).
    now rewrite <- List.app_assoc.
  - apply IH.
Qed.

Lemma pdf_pages_app pre post :
  forall i text,
    pdf_pages i (pre ++ post) text
    = pdf_pages (i + len pre) post (pdf_pages i pre text).
Proof.
  induction pre as [|[t|] pre IH]; intros i text; simpl.
  - unfold len. simpl. now rewrite Z.add_0_r.
  - destruct (truthy t); rewrite IH; f_equal; unfold len; simpl List.length;
      lia.
  - rewrite IH. f_equal. unfold len. simpl List.length. lia.
Qed.

(** The block that one readable page adds to the text. *)
Abbreviation page_block :=
  (fun (n : Z) (page_text : str) =>
     [NL] ++ lit "--- Page " ++ str_of_Z n ++ lit " ---" ++ [NL]
          ++ page_text ++ [NL]).

(** Every page with text is in the untrimmed text under its own page
    number, counted over all the pages: a page without text, or one whose
    extraction raised, is left out and does not renumber the others. *)
Theorem pdf_pages_keep_their_numbers :
  forall (pre post : list (option str)) (page_text : str),
    page_text <> [] ->
    exists before after,
      pdf_pages 0 (pre ++ Some page_text :: post) []
      = before ++ page_block (len pre + 1) page_text ++ after.
Proof.
  intros pre post t Ht.
  rewrite pdf_pages_app. cbn [pdf_pages].
  destruct t as [|c t']; [contradiction|]. cbn [truthy].
  rewrite pdf_pages_acc. rewrite Z.add_0_l.
  exists (pdf_pages 0 pre []), (pdf_pages (len pre + 1) post []).
  rewrite <- !List.app_assoc. reflexivity.
Qed.

Lemma pdf_pages_blank pages :
  Forall (fun p => p = None \/ p = Some []) pages ->
  forall i text, pdf_pages i pages text = text.
Proof.
  induction 1 as [|p rest [->| ->] _ IH]; intros i text; simpl; auto.
Qed.

Lemma pdf_pages_dash pages :
  ~ Forall (fun p => p = None \/ p = Some []) pages ->
  forall i, In 45%N (pdf_pages i pages []).
Proof.
  induction pages as [|p rest IH]; intros H i.
  - exfalso. apply H. constructor.
  - destruct p as [[|c t]|]; simpl.
    + apply IH. intros Fa. apply H. constructor; auto.
    + rewrite pdf_pages_acc. apply List.in_or_app. left.
      right. now left.
    + apply IH. intros Fa. apply H. constructor; auto.
Qed.

(** The text of a PDF is empty exactly when the reader raised or no page
    gave any text. *)
Theorem pdf_text_empty_iff :
  forall pdf_file : UploadedFile,
    extract_text_from_pdf pdf_file = [] <->
    match PdfReader (data pdf_file) with
    | None => True
    | Some pages => Forall (fun p => p = None \/ p = Some []) pages
    end.
Proof.
  intros f. unfold Extractors.extract_text_from_pdf.
  destruct (PdfReader (data f)) as [pages|]; [|tauto].
  split.
  - intros E. apply strip_nil_iff in E.
    destruct (List.Forall_dec (fun p : option str => p = None \/ p = Some []))
      with (l := pages) as [Fa|Nf]; [|exact Fa|].
    + intros [[|c t]|];
        [left; now right | right; intros [D|D]; discriminate | left; now left].
    + exfalso. pose proof (pdf_pages_dash pages Nf 0) as I.
      rewrite List.Forall_forall in E. apply E in I. discriminate.
  - intros Fa. now rewrite pdf_pages_blank.
Qed.

(** ** DOCX *)

Abbreviation blank := (fun t : str => Forall (fun c => is_space c = true) t).

Lemma Forall_space_app (a b : str) :
  blank (a ++ b) <-> blank a /\ blank b.
Proof. apply List.Forall_app. Qed.

Lemma truthy_strip t : truthy (strip t) = false <-> blank t.
Proof.
  rewrite <- strip_nil_iff. destruct (strip t); simpl; split; congruence.
Qed.

Lemma docx_paragraphs_blank ps :
  forall text,
    blank (docx_paragraphs ps text) <-> blank text /\ Forall blank ps.
Proof.
  induction ps as [|p rest IH]; intros text; simpl.
  - split; [intros H; split; [exact H | constructor] | tauto].
  - destruct (truthy (strip p)) eqn:T.
    + assert (Np : ~ blank p).
      { intros B. apply truthy_strip in B. congruence. }
      rewrite IH, !Forall_space_app. split.
      * intros [(_ & B & _) _]. contradiction.
      * intros [_ Fa]. inversion Fa. contradiction.
    + apply truthy_strip in T. rewrite IH. split.
      * intros [B Fa]. split; [exact B | now constructor].
      * intros [B Fa]. split; [exact B | now inversion Fa].
Qed.

Lemma docx_cells_blank cells :
  forall text,
    blank (docx_cells cells text) <-> blank text /\ Forall blank cells.
Proof.
  induction cells as [|c rest IH]; intros text; simpl.
  - split; [intros H; split; [exact H | constructor] | tauto].
  - destruct (truthy (strip c)) eqn:T.
    + assert (Np : ~ blank c).
      { intros B. apply truthy_strip in B. congruence. }
      rewrite IH, !Forall_space_app. split.
      * intros [(_ & B & _) _]. contradiction.
      * intros [_ Fa]. inversion Fa. contradiction.
    + apply truthy_strip in T. rewrite IH. split.
      * intros [B Fa]. split; [exact B | now constructor].
      * intros [B Fa]. split; [exact B | now inversion Fa].
Qed.

Lemma docx_rows_blank rows :
  forall text,
    blank (docx_rows rows text) <-> blank text /\ Forall (Forall blank) rows.
Proof.
  induction rows as [|row rest IH]; intros text; simpl.
  - split; [intros H; split; [exact H | constructor] | tauto].
  - rewrite IH, Forall_space_app, docx_cells_blank. split.
    + intros [[[B R] _] Fa]. split; [exact B | now constructor].
    + intros [B Fa]. inversion Fa; subst.
      repeat split; auto; repeat constructor.
Qed.

Lemma docx_tables_blank ts :
  forall text,
    blank (docx_tables ts text)
    <-> blank text /\ Forall (Forall (Forall blank)) ts.
Proof.
  induction ts as [|t rest IH]; intros text; simpl.
  - split; [intros H; split; [exact H | constructor] | tauto].
  - rewrite IH, docx_rows_blank. split.
    + intros [[B R] Fa]. split; [exact B | now constructor].
    + intros [B Fa]. inversion Fa; subst. auto.
Qed.

(** The text of a DOCX file is empty exactly when the library raised or
    every paragraph and every table cell is whitespace throughout. *)
Theorem docx_text_empty_iff :
  forall docx_file : UploadedFile,
    extract_text_from_docx docx_file = [] <->
    match Document (data docx_file) with
    | None => True
    | Some doc =>
        Forall blank (paragraphs doc) /\
        Forall (Forall (Forall blank)) (tables doc)
    end.
Proof.
  intros f. unfold Extractors.extract_text_from_docx.
  destruct (Document (data f)) as [doc|]; [|tauto].
  rewrite strip_nil_iff, docx_tables_blank, docx_paragraphs_blank.
  split; [tauto|]. intros [P T]. repeat split; auto; constructor.
Qed.

(** ** TXT *)

(** A text file that is valid UTF-8 gives its decoding, trimmed.  One
    that is not is read as Latin-1 and never refused: the text is the
    trimmed sequence of the byte values, so it has at most one character
    per byte and no character above U+00FF. *)
Theorem txt_falls_back_on_latin1 :
  forall txt_file : UploadedFile,
    (forall t, decode_utf8 (data txt_file) = Some t ->
               extract_text_from_txt txt_file = strip t) /\
    (decode_utf8 (data txt_file) = None ->
     extract_text_from_txt txt_file = strip (decode_latin1 (data txt_file)) /\
     len (extract_text_from_txt txt_file) <= len (data txt_file) /\
     Forall (fun c => (c <= 255)%N) (extract_text_from_txt txt_file)).
Proof.
  intros f. unfold Extractors.extract_text_from_txt. split.
  - intros t ->. reflexivity.
  - intros ->. split; [reflexivity|]. split.
    + pose proof (strip_length (decode_latin1 (data f))) as L.
      unfold decode_latin1 in *. rewrite List.length_map in L.
      unfold len. lia.
    + apply List.Forall_forall. intros c H. apply strip_incl in H.
      unfold decode_latin1 in H. apply List.in_map_iff in H.
      destruct H as [b [<- _]]. apply Byte.to_N_bounded.
Qed.

End Extraction.

(** The third of three pages, the second of which cannot be read. *)
Lemma pdf_pages_keep_their_numbers_witness :
  Py.lit "Third page." <> [] /\
  exists before after,
    Extractors.pdf_pages 0
      ([Some (Py.lit "First page."); None] ++ Some (Py.lit "Third page.") :: [])
      []
    = before
        ++ ([Py.NL] ++ Py.lit "--- Page " ++ ChatHandler.str_of_Z 3
              ++ Py.lit " ---" ++ [Py.NL] ++ Py.lit "Third page." ++ [Py.NL])
        ++ after.
Proof.
  split; [discriminate|].
  exact (ExtractorProofs.pdf_pages_keep_their_numbers
           [Some (Py.lit "First page."); None] [] (Py.lit "Third page.")
           ltac:(discriminate)).
Defined.

End ExtractorProofs.

(* ===================================================================== *)
(** * Properties of the summary and of the suggested questions *)
(* ===================================================================== *)

Module AssistantProofs.
Import Py PyText PyFacts TextFacts VectorStore ChatHandler Assistant.
Import ChatHandlerProofs.

Lemma slice_top_twice {A} (l : list A) (n : Z) :
  0 <= n -> slice (slice l 0 n) 0 n = slice l 0 n.
Proof.
  intros Hn. rewrite !slice_top by exact Hn.
  rewrite List.firstn_firstn. f_equal. lia.
Qed.

Lemma slice_top_length {A} (l : list A) (n : Z) :
  0 <= n -> len (slice l 0 n) <= n.
Proof.
  intros Hn. rewrite slice_top by exact Hn. unfold len.
  rewrite List.length_firstn. lia.
Qed.

Lemma slice_top_incl {A} (l : list A) (n : Z) x :
  0 <= n -> In x (slice l 0 n) -> In x l.
Proof.
  intros Hn. rewrite slice_top by exact Hn. apply FlatL2Proofs.firstn_incl.
Qed.

Lemma endswith_nonempty t : endswith t QUESTION_MARK = true -> t <> [].
Proof. intros H ->. discriminate. Qed.

Section Model.

Context {World : Type}.
Variable generate_content : str -> World -> (str + str) * World.
Variable format_2f : Q -> str.

Abbreviation generate_summary := (generate_summary generate_content).
Abbreviation suggest_questions := (suggest_questions generate_content).
Abbreviation generate_response :=
  (generate_response format_2f (generate_content_opt generate_content)).

(** The summary is asked for the first 8000 characters of the text only:
    what follows them changes neither the prompt nor the result, and the
    prompt is at most 8000 characters longer than its fixed part. *)
Theorem summary_reads_a_prefix :
  forall (text : str) (w : World),
    summary_prompt text = summary_prompt (slice text 0 8000) /\
    generate_summary text w = generate_summary (slice text 0 8000) w /\
    len (summary_prompt text) <= len (summary_prompt []) + 8000.
Proof.
  intros text w.
  assert (P : summary_prompt text = summary_prompt (slice text 0 8000)).
  { unfold summary_prompt. now rewrite slice_top_twice by lia. }
  split; [exact P|]. split.
  - unfold Assistant.generate_summary. now rewrite <- P.
  - unfold summary_prompt. rewrite !len_app.
    pose proof (slice_top_length text 8000 ltac:(lia)).
    change (len (slice (@nil char) 0 8000)) with 0. lia.
Qed.

(** Whatever the generative model does, answer or empty answer or
    exception, [generate_response] and [generate_summary] return a text
    that is not empty. *)
Theorem answers_are_never_empty :
  forall (query text : str) (context_chunks : list result) (w : World),
    fst (generate_response query context_chunks w) <> [] /\
    fst (generate_summary text w) <> [].
Proof.
  intros query text chunks w. split.
  - unfold ChatHandler.generate_response, generate_content_opt.
    destruct (generate_content _ w) as [[t|e] w']; simpl.
    + destruct t; simpl; discriminate.
    + discriminate.
  - unfold Assistant.generate_summary.
    destruct (generate_content _ w) as [[t|e] w']; simpl.
    + destruct t; simpl; discriminate.
    + discriminate.
Qed.

(** What a suggested question is, given the lines it was read from: a
    trimmed line that ends in a question mark, or what follows the first
    character of a trimmed line, trimmed again; never empty. *)
Abbreviation question_of :=
  (fun (lines : list str) (q : str) =>
     q <> [] /\ strip q = q /\
     exists line,
       In line lines /\
       ((q = strip line /\ endswith q QUESTION_MARK = true) \/
        (q = strip (slice (strip line) 1 (len (strip line))) /\
         (startswith (strip line) DASH || startswith (strip line) BULLET
          || startswith (strip line) STAR) = true))).

Lemma parse_questions_sound (all : list str) lines :
  forall questions,
    (forall l, In l lines -> In l all) ->
    Forall (question_of all) questions ->
    Forall (question_of all) (parse_questions lines questions).
Proof.
  induction lines as [|line rest IH]; intros questions Sub Fa; simpl;
    [exact Fa|].
  assert (Sub' : forall l, In l rest -> In l all)
    by (intros l H; apply Sub; now right).
  assert (Hin : In line all) by (apply Sub; now left).
  destruct (truthy (strip line)
            && (startswith (strip line) DASH || startswith (strip line) BULLET
                || startswith (strip line) STAR)) eqn:B.
  - apply andb_true_iff in B. destruct B as [_ B].
    destruct (strip (slice (strip line) 1 (len (strip line)))) as [|c q] eqn:Q;
      simpl; [now apply IH|].
    apply IH; [exact Sub'|]. apply List.Forall_app. split; [exact Fa|].
    constructor; [|constructor].
    split; [discriminate|]. split; [rewrite <- Q; apply strip_idem|].
    exists line. split; [exact Hin|]. right. split; [now rewrite Q | exact B].
  - destruct (endswith (strip line) QUESTION_MARK) eqn:E; [|now apply IH].
    apply IH; [exact Sub'|]. apply List.Forall_app. split; [exact Fa|].
    constructor; [|constructor].
    split; [now apply endswith_nonempty|]. split; [apply strip_idem|].
    exists line. split; [exact Hin|]. left. split; [reflexivity | exact E].
Qed.

Lemma suggestions_length (chunks : list result) (w : World) :
  len (fst (suggest_questions chunks w)) <= 5.
Proof.
  unfold Assistant.suggest_questions.
  destruct chunks as [|[[text score] m] rest]; [unfold len; simpl; lia|].
  destruct (generate_content _ w) as [[t|e] w']; simpl;
    [|unfold len; simpl; lia].
  destruct (truthy t); simpl; [|unfold len; simpl; lia].
  apply slice_top_length. lia.
Qed.

(** [suggest_questions] returns at most five questions; each is not
    empty and has no whitespace at either end. *)
Theorem suggestions_are_few_and_trimmed :
  forall (context_chunks : list result) (w : World),
    len (fst (suggest_questions context_chunks w)) <= 5 /\
    Forall (fun q => q <> [] /\ strip q = q)
           (fst (suggest_questions context_chunks w)).
Proof.
  intros chunks w. unfold Assistant.suggest_questions.
  destruct chunks as [|[[text score] m] rest];
    [split; [unfold len; simpl; lia | constructor]|].
  destruct (generate_content _ w) as [[t|e] w']; simpl;
    [|split; [unfold len; simpl; lia | constructor]].
  destruct (truthy t); simpl;
    [|split; [unfold len; simpl; lia | constructor]].
  split; [apply slice_top_length; lia|].
  apply List.Forall_forall. intros q Hq.
  apply slice_top_incl in Hq; [|lia].
  pose proof (parse_questions_sound (split NL t) (split NL t) []
                ltac:(auto) ltac:(constructor)) as S.
  rewrite List.Forall_forall in S. destruct (S q Hq) as (N & T & _). auto.
Qed.

(** Every suggested question comes from one line of the response of the
    model: it is the trimmed line, which then ends in a question mark, or
    the trimmed rest of a line that starts with one of the list markers. *)
Theorem suggestions_come_from_lines :
  forall (context_chunks : list result) (w w' : World) (text excerpt : str)
         (score : Q) (m : gmap str value) (rest : list result) (q : str),
    context_chunks = (excerpt, score, m) :: rest ->
    generate_content (questions_prompt (slice excerpt 0 2000)) w
      = (inl text, w') ->
    In q (fst (suggest_questions context_chunks w)) ->
    exists line,
      In line (split NL text) /\
      ((q = strip line /\ endswith q QUESTION_MARK = true) \/
       (q = strip (slice (strip line) 1 (len (strip line))) /\
        (startswith (strip line) DASH || startswith (strip line) BULLET
         || startswith (strip line) STAR) = true)).
Proof.
  intros chunks w w' text excerpt score m rest q -> G.
  unfold Assistant.suggest_questions. rewrite G.
  destruct (truthy text); simpl; [|intros []].
  intros Hq. apply slice_top_incl in Hq; [|lia].
  pose proof (parse_questions_sound (split NL text) (split NL text) []
                ltac:(auto) ltac:(constructor)) as S.
  rewrite List.Forall_forall in S. destruct (S q Hq) as (_ & _ & L). exact L.
Qed.

(** [suggest_questions] looks at the first 2000 characters of the text of
    the first chunk and at nothing else; without chunks it returns the
    empty list and does not call the model. *)
Theorem suggestions_read_the_first_excerpt :
  forall (text : str) (score score' : Q) (m m' : gmap str value)
         (rest : list result) (w : World),
    suggest_questions ((text, score, m) :: rest) w
    = suggest_questions [(slice text 0 2000, score', m')] w /\
    suggest_questions [] w = ([], w).
Proof.
  intros text score score' m m' rest w. split; [|reflexivity].
  unfold Assistant.suggest_questions.
  now rewrite slice_top_twice by lia.
Qed.

End Model.

(** The questions read from the answer of the demo model. *)
Lemma suggestions_come_from_lines_witness :
  In (Py.lit "How long is it?")
     (fst (Assistant.suggest_questions DemoApp.model
             [(Py.lit "excerpt", 1%Q, ∅)] tt)) /\
  exists line,
    In line
       (PyText.split Py.NL
          (match fst (DemoApp.model [] tt) with inl t => t | inr e => e end))
    /\
    ((Py.lit "How long is it?" = Py.strip line /\
      PyText.endswith (Py.lit "How long is it?") Assistant.QUESTION_MARK = true)
     \/
     (Py.lit "How long is it?"
      = Py.strip (Py.slice (Py.strip line) 1 (Py.len (Py.strip line))) /\
      (PyText.startswith (Py.strip line) Assistant.DASH
       || PyText.startswith (Py.strip line) Assistant.BULLET
       || PyText.startswith (Py.strip line) Assistant.STAR) = true)).
Proof.
  assert (H : In (Py.lit "How long is it?")
                 (fst (Assistant.suggest_questions DemoApp.model
                         [(Py.lit "excerpt", 1%Q, ∅)] tt))).
  { vm_compute. right. right. now left. }
  split; [exact H|].
  exact (AssistantProofs.suggestions_come_from_lines DemoApp.model
           [(Py.lit "excerpt", 1%Q, ∅)] tt tt _ (Py.lit "excerpt") 1%Q ∅ []
           (Py.lit "How long is it?") eq_refl eq_refl H).
Defined.

End AssistantProofs.


(* ===================================================================== *)
(** * Further properties of the vector store *)
(* ===================================================================== *)

Module VectorStoreExtras.
Import Py PyFacts VectorStore StoreNotions VectorStoreProofs.

Lemma store_eta {F : Faiss} (s : VectorStore) :
  {| index := index s; texts := texts s; metadata := metadata s;
     dimension := dimension s |} = s.
Proof. now destruct s. Qed.

Section Store.

Context {F : Faiss} {World : Type}.
Variable embed_content : task_type -> str -> M World vec.

Abbreviation search := (search embed_content).
Abbreviation embed_all := (embed_all embed_content).
Abbreviation _get_embeddings := (_get_embeddings embed_content).
Abbreviation add_documents := (add_documents embed_content).
Abbreviation run_all := (run_all embed_content).

(** [clear] leaves a store without chunks, whatever it held: the
    statistics are zero with the dimension kept, the arrays are parallel,
    and clearing again changes nothing. *)
Theorem clear_empties_the_store :
  forall (L : FaissLaws F) (s : VectorStore),
    get_stats (clear s)
    = {| total_chunks := 0; index_size := 0;
         stats_dimension := dimension s |} /\
    consistent (clear s) /\
    clear (clear s) = clear s.
Proof.
  intros L s. split; [|split; [|reflexivity]].
  - unfold get_stats. simpl. now rewrite ntotal_IndexFlatL2.
  - split; simpl; [apply ntotal_IndexFlatL2 | reflexivity].
Qed.

(** Every result of [search] is a stored chunk: its text is the text at
    some offset of [texts], and its metadata is the metadata at that
    offset, or the empty object when [metadata] is shorter. *)
Theorem search_returns_stored_chunks :
  forall (s : VectorStore) (query : str) (k : Z) (w : World) (r : result),
    In r (fst (search s query k w)) ->
    exists i : nat,
      texts s !! i = Some (fst (fst r)) /\
      (metadata s !! i = Some (snd r) \/
       (metadata s !! i = None /\ snd r = ∅)).
Proof.
  intros s query k w r. unfold VectorStore.search.
  destruct (ntotal (index s) =? 0); [intros []|].
  destruct (embed_content retrieval_query query w) as [[embedding|] w'];
    [|intros []].
  destruct (index_search _ _ _) as [[D I]|]; [|intros []].
  rewrite collect_results_joined. simpl. intros H.
  apply List.in_flat_map in H. destruct H as [[d idx] [_ H]].
  unfold joined in H. destruct (0 <=? idx); [|destruct H].
  destruct (texts s !! Z.to_nat idx) as [t|] eqn:T; [|destruct H].
  destruct H as [<-|[]]. exists (Z.to_nat idx). simpl.
  split; [exact T|].
  destruct (metadata s !! Z.to_nat idx); simpl; auto.
Qed.

(** The batches of [_get_embeddings] only group the calls: the service is
    called once per text, in the order of the texts, up to the first call
    that raises; the result is the array of the vectors in that order,
    or the empty array after an exception. *)
Theorem get_embeddings_calls_once_per_text :
  forall (texts_ : list str) (w : World),
    _get_embeddings texts_ w
    = match embed_all texts_ w with
      | (Some vs, w') => (default [] (np_array vs), w')
      | (None, w') => ([], w')
      end.
Proof.
  intros texts_ w. unfold VectorStore._get_embeddings.
  rewrite get_embeddings_try_all. unfold bind.
  destruct (embed_all texts_ w) as [[vs|] w']; [|reflexivity].
  destruct (np_array vs); reflexivity.
Qed.

(** What [add_documents] can give: the store untouched with [false], or
    with [true] the store with the texts and the metadata appended. *)
Lemma add_documents_cases (s : VectorStore) (texts_ : list str)
    (metadata_ : option (list dict)) (w : World) :
  (exists w', add_documents s texts_ metadata_ w = (false, s, w')) \/
  (exists ix w',
      add_documents s texts_ metadata_ w
      = (true,
         {| index := ix; texts := texts s ++ texts_;
            metadata := metadata s
                        ++ match metadata_ with
                           | Some ((_ :: _) as m) => m
                           | _ => default_metadata s (List.length texts_)
                           end;
            dimension := dimension s |}, w')).
Proof.
  unfold VectorStore.add_documents.
  destruct (truthy texts_); simpl; [|eauto].
  destruct (_get_embeddings texts_ w) as [a w1].
  destruct (size a =? 0); simpl; [eauto|].
  destruct (index_add (index s) a) as [ix|]; simpl; [|eauto].
  right. exists ix, w1. destruct metadata_ as [[|d m]|]; reflexivity.
Qed.

(** [add_documents] only appends: the texts and the metadata the store
    held stay at their offsets; on success the new texts follow them in
    the order given, on failure nothing is added. *)
Theorem add_documents_only_appends :
  forall (s : VectorStore) (texts_ : list str)
         (metadata_ : option (list dict)) (w : World),
    let ok := fst (fst (add_documents s texts_ metadata_ w)) in
    let s' := snd (fst (add_documents s texts_ metadata_ w)) in
    texts s' = texts s ++ (if ok then texts_ else []) /\
    (exists added, metadata s' = metadata s ++ added) /\
    dimension s' = dimension s /\
    (ok = false -> s' = s).
Proof.
  intros s texts_ metadata_ w.
  destruct (add_documents_cases s texts_ metadata_ w)
    as [[w' E]|(ix & w' & E)]; rewrite E; simpl.
  - rewrite List.app_nil_r. repeat split. exists [].
    now rewrite List.app_nil_r.
  - split; [reflexivity|]. split; [eauto|]. split; [reflexivity|discriminate].
Qed.

End Store.

Section Ids.

Context {F : Faiss} {World : Type}.
Variable embed_content : task_type -> str -> M World vec.

Lemma default_metadata_lookup (s : VectorStore) (n i : nat) m :
  default_metadata s n !! i = Some m ->
  m = {[ lit "chunk_id" := VInt (Z.of_nat i + len (metadata s)) ]}.
Proof.
  unfold default_metadata. rewrite list_lookup_fmap.
  destruct (List.seq 0 n !! i) as [j|] eqn:E; [|discriminate].
  apply lookup_seq in E. destruct E as [-> _]. simpl. now intros [= <-].
Qed.

Lemma ids_after_default (s : VectorStore) n (ix : Index) (t : list str) :
  ids_are_offsets s ->
  ids_are_offsets
    {| index := ix; texts := t;
       metadata := metadata s ++ default_metadata s n;
       dimension := dimension s |}.
Proof.
  intros H i m. simpl. intros L.
  destruct (Nat.lt_ge_cases i (List.length (metadata s))) as [Hlt|Hge].
  - rewrite lookup_app_l in L by exact Hlt. now apply H.
  - rewrite lookup_app_r in L by exact Hge.
    apply default_metadata_lookup in L. subst m.
    rewrite lookup_singleton_eq. do 2 f_equal. unfold len. lia.
Qed.

(** When the callers never give metadata of their own, the metadata the
    store makes up numbers the chunks by their offset: after any run of
    operations on a new store, the object at offset [i] has
    ["chunk_id"] equal to [i]. *)
Theorem default_chunk_ids_are_offsets :
  forall (ops : list op) (w : World),
    Forall without_metadata ops ->
    ids_are_offsets (fst (run_all embed_content ops init w)).
Proof.
  assert (Step : forall o s w,
             without_metadata o -> ids_are_offsets s ->
             ids_are_offsets (fst (run embed_content o s w))).
  { intros o s w Ho Hs. destruct o as [t m|q k|]; simpl.
    - unfold add_documents.
      destruct (truthy t); simpl; [|exact Hs].
      destruct (_get_embeddings embed_content t w) as [a w1].
      destruct (size a =? 0); simpl; [exact Hs|].
      destruct (index_add (index s) a); simpl; [|exact Hs].
      destruct m as [[|d m]|]; simpl in Ho; try contradiction;
        now apply ids_after_default.
    - exact Hs.
    - intros i m. simpl. rewrite lookup_nil. discriminate. }
  assert (G : forall ops s w,
             Forall without_metadata ops -> ids_are_offsets s ->
             ids_are_offsets (fst (run_all embed_content ops s w))).
  { induction ops as [|o ops IH]; intros s w Hok Hs; simpl; [exact Hs|].
    inversion Hok as [|? ? Ho Hops]; subst.
    pose proof (Step o s w Ho Hs) as C.
    destruct (run embed_content o s w) as [s' w']. now apply IH. }
  intros ops w Hok. apply G; [exact Hok|].
  intros i m. simpl. rewrite lookup_nil. discriminate.
Qed.

End Ids.

Section Files.

Context {F : Faiss}.



Lemma last_char_differs (p q : str) : p ++ lit ".pkl" <> q ++ lit ".faiss".
Proof.
  intros E. apply (f_equal (@List.rev char)) in E.
  rewrite !List.rev_app_distr in E. discriminate.
Qed.



(** [load] returns false and leaves the store as it was when one of the
    two files is missing. *)
Theorem load_needs_both_files :
  forall (s : VectorStore) (p : str) (fs : gmap str file),
    fs !! (p ++ lit ".faiss" : str) = None \/ fs !! (p ++ lit ".pkl" : str) = None ->
    load s p fs = (false, s).
Proof.
  intros s p fs H. unfold load, exists_.
  change (list char) with str in *.
  destruct H as [-> | ->]; simpl; [reflexivity|].
  destruct (fs !! (p ++ lit ".faiss" : str)); reflexivity.
Qed.

(** [load] is not all-or-nothing: when the index file can be read and
    the other file holds no bundle, [load] returns false but the store
    already has the index of the file, with the texts and the metadata
    it had before. *)
Theorem load_can_replace_the_index_and_fail :
  forall (s : VectorStore) (p : str) (fs : gmap str file) (ix ix' : Index),
    fs !! (p ++ lit ".faiss" : str) = Some (FaissFile ix) ->
    fs !! (p ++ lit ".pkl" : str) = Some (FaissFile ix') ->
    load s p fs
    = (false, {| index := ix; texts := texts s; metadata := metadata s;
                 dimension := dimension s |}).
Proof.
  intros s p fs ix ix' H1 H2. unfold load, exists_, read_index.
  change (list char) with str in *. now rewrite H1, H2.
Qed.

End Files.

(** ** On the flat index *)

Import FlatL2 FlatL2Proofs Demo.

(** Clearing the demo store of two chunks. *)
Lemma clear_empties_the_store_witness :
  get_stats (clear store)
  = {| total_chunks := 0; index_size := 0; stats_dimension := 768 |} /\
  consistent (clear store) /\
  clear (clear store) = clear store.
Proof.
  exact (clear_empties_the_store (F := flat_faiss) flat_laws store).
Defined.

(** The nearest chunk of the demo store to a query of twelve characters
    is the text of twelve characters, with its metadata. *)
Lemma search_returns_stored_chunks_witness :
  In (cat, (1 / (1 + 0))%Q, source (lit "a.txt"))
     (fst (search (F := flat_faiss) service store (lit "twelve chars") 1 tt))
  /\
  exists i : nat,
    texts store !! i = Some cat /\
    (metadata store !! i = Some (source (lit "a.txt")) \/
     (metadata store !! i = None /\ source (lit "a.txt") = ∅)).
Proof.
  assert (H : In (cat, (1 / (1 + 0))%Q, source (lit "a.txt"))
                 (fst (search (F := flat_faiss) service store
                         (lit "twelve chars") 1 tt))).
  { left. vm_compute. reflexivity. }
  split; [exact H|].
  exact (search_returns_stored_chunks (F := flat_faiss) service store
           (lit "twelve chars") 1 tt _ H).
Defined.

(** Two additions without metadata, with a clear in between. *)
Lemma default_chunk_ids_are_offsets_witness :
  Forall without_metadata
         [OpAddDocuments [cat; dog] None; OpClear;
          OpAddDocuments [dog] (Some []); OpAddDocuments [cat; dog] None] /\
  ids_are_offsets
    (fst (run_all (F := flat_faiss) service
            [OpAddDocuments [cat; dog] None; OpClear;
             OpAddDocuments [dog] (Some []); OpAddDocuments [cat; dog] None]
            init tt)).
Proof.
  assert (H : Forall without_metadata
                [OpAddDocuments [cat; dog] None; OpClear;
                 OpAddDocuments [dog] (Some []);
                 OpAddDocuments [cat; dog] None]).
  { repeat constructor. }
  split; [exact H|].
  exact (default_chunk_ids_are_offsets (F := flat_faiss) service _ tt H).
Defined.


(** Loading where nothing was saved. *)
Lemma load_needs_both_files_witness :
  load (F := flat_faiss) store (lit "a/x") ∅ = (false, store).
Proof.
  apply (load_needs_both_files (F := flat_faiss) store (lit "a/x") ∅).
  left. reflexivity.
Defined.

(** An index file next to a second index file where the bundle should
    be: the store of two chunks ends up with an empty index. *)
Lemma load_can_replace_the_index_and_fail_witness :
  let ix : @Index flat_faiss := {| flat_d := 768; flat_xb := [] |} in
  load (F := flat_faiss) store (lit "a/x") (broken_files ix (lit "a/x"))
  = (false, {| index := ix; texts := texts store;
               metadata := metadata store; dimension := dimension store |})
  /\ ~ consistent (snd (load (F := flat_faiss) store (lit "a/x")
                          (broken_files ix (lit "a/x")))).
Proof.
  intros ix.
  assert (E : load (F := flat_faiss) store (lit "a/x")
                   (broken_files ix (lit "a/x"))
              = (false, {| index := ix; texts := texts store;
                           metadata := metadata store;
                           dimension := dimension store |})).
  { apply (load_can_replace_the_index_and_fail (F := flat_faiss) store
             (lit "a/x") (broken_files ix (lit "a/x")) ix ix).
    - unfold broken_files.
      rewrite lookup_insert_ne by apply last_char_differs.
      apply lookup_insert_eq.
    - unfold broken_files. apply lookup_insert_eq. }
  split; [exact E|]. rewrite E. intros [C _]. vm_compute in C. discriminate.
Defined.

End VectorStoreExtras.

(* ===================================================================== *)
(** * Properties of the application *)
(* ===================================================================== *)

Module AppProofs.
Import Py PyText PyFacts TextFacts DocumentProcessor VectorStore ChatHandler.
Import Extractors Assistant App VectorStoreProofs ChatHandlerProofs.

Lemma combine_app {A B} (a a' : list A) (b b' : list B) :
  List.length a = List.length b ->
  List.combine (a ++ a') (b ++ b') = List.combine a b ++ List.combine a' b'.
Proof.
  revert b. induction a as [|x a IH]; intros [|y b] H; simpl in *;
    try discriminate; [reflexivity|].
  f_equal. apply IH. lia.
Qed.

Lemma range_by_one (n : Z) :
  range 0 n 1 = List.map Z.of_nat (List.seq 0 (Z.to_nat n)).
Proof.
  unfold range. rewrite Z.div_1_r.
  replace (n - 0 + 1 - 1) with n by lia.
  apply List.map_ext. intros j. lia.
Qed.

Lemma combine_seq_imap {A B} (f : Z -> B) (l : list A) :
  forall k : nat,
    List.combine l (List.map (fun j => f (Z.of_nat j))
                             (List.seq k (List.length l)))
    = imap (fun j c => (c, f (Z.of_nat (k + j)))) l.
Proof.
  induction l as [|x l IH]; intros k; simpl; [reflexivity|].
  rewrite Nat.add_0_r. f_equal. rewrite IH.
  apply imap_ext. intros j y _. simpl. do 3 f_equal. lia.
Qed.

Section Session.

Context {F : Faiss} {World : Type}.

Variable unicode_alnum : char -> bool.
Variable PdfReader : list Byte.byte -> option (list (option str)).
Variable Document : list Byte.byte -> option Docx.
Variable decode_utf8 : list Byte.byte -> option str.
Variable lower : str -> str.
Variable embed_content : task_type -> str -> M World vec.
Variable generate_content : str -> World -> (str + str) * World.
Variable format_2f : Q -> str.

Abbreviation text_of f :=
  (process_uploaded_file PdfReader Document decode_utf8 lower (Some f)).
Abbreviation chunks_of f := (chunk_text_default unicode_alnum (text_of f)).
Abbreviation gather :=
  (gather unicode_alnum PdfReader Document decode_utf8 lower).
Abbreviation process_documents :=
  (process_documents unicode_alnum PdfReader Document decode_utf8 lower
                     embed_content).
Abbreviation ask := (ask embed_content generate_content format_2f).
Abbreviation generate_suggested_questions :=
  (generate_suggested_questions embed_content generate_content).

(** The metadata of chunk [j] of the file [file]. *)
Abbreviation chunk_entry file j :=
  (<[ lit "chunk_id" := VInt j ]> {[ lit "source" := VStr file ]}
   : gmap str value).

(** The chunks of one file, each with the metadata it should get; none
    for a file without text. *)
Abbreviation labelled :=
  (fun f : UploadedFile =>
     if truthy (text_of f)
     then imap (fun j c => (c, chunk_entry (name f) (Z.of_nat j)))
               (chunks_of f)
     else []).

Lemma chunk_metadata_one (file : str) (chunks : list str) (n : Z) :
  List.combine chunks
    (chunk_metadata [{| info_file := file; info_chunks := len chunks;
                        info_characters := n |}])
  = imap (fun j c => (c, chunk_entry file (Z.of_nat j))) chunks /\
  List.length (chunk_metadata [{| info_file := file;
                                  info_chunks := len chunks;
                                  info_characters := n |}])
  = List.length chunks.
Proof.
  unfold chunk_metadata. simpl. rewrite List.app_nil_r, range_by_one.
  unfold len. rewrite Nat2Z.id, List.map_map. split.
  - apply (combine_seq_imap (fun j => chunk_entry file j) chunks 0).
  - now rewrite List.length_map, List.length_seq.
Qed.

Lemma chunk_metadata_app a b :
  chunk_metadata (a ++ b) = chunk_metadata a ++ chunk_metadata b.
Proof. unfold chunk_metadata. apply List.flat_map_app. Qed.

Lemma gather_aligned files :
  forall all_chunks processed infos,
    List.length (chunk_metadata infos) = List.length all_chunks ->
    List.combine (fst (fst (gather files all_chunks processed infos)))
                 (chunk_metadata (snd (gather files all_chunks processed infos)))
    = List.combine all_chunks (chunk_metadata infos)
      ++ List.flat_map labelled files /\
    List.length (chunk_metadata (snd (gather files all_chunks processed infos)))
    = List.length (fst (fst (gather files all_chunks processed infos))).
Proof.
  induction files as [|f files IH]; intros ac pf infos Hlen;
    cbn [App.gather List.flat_map].
  - split; [now rewrite List.app_nil_r | exact Hlen].
  - destruct (truthy (text_of f)); [|now apply IH].
    destruct (chunk_metadata_one (name f) (chunks_of f) (len (text_of f)))
      as [One Len].
    specialize (IH (ac ++ chunks_of f) (pf ++ [name f])
                   (infos ++ [{| info_file := name f;
                                 info_chunks := len (chunks_of f);
                                 info_characters := len (text_of f) |}])).
    rewrite chunk_metadata_app in IH.
    destruct IH as [C L].
    { rewrite !List.length_app. lia. }
    split; [|exact L].
    rewrite C. rewrite combine_app by lia.
    rewrite One. now rewrite <- List.app_assoc.
Qed.

(** The metadata that [process_documents] hands to the store lines up
    with the chunks: there is one entry per chunk, and the entry of the
    [j]-th chunk of a file names that file as ["source"] and [j] as
    ["chunk_id"], the files taken in the order of the upload and files
    without text left out. *)
Theorem metadata_lines_up_with_chunks :
  forall uploaded_files : list UploadedFile,
    let r := gather uploaded_files [] [] [] in
    List.combine (fst (fst r)) (chunk_metadata (snd r))
    = List.flat_map labelled uploaded_files /\
    List.length (chunk_metadata (snd r)) = List.length (fst (fst r)).
Proof.
  intros files.
  exact (gather_aligned files [] [] [] eq_refl).
Qed.

Lemma gather_metadata_ok files :
  op_ok (OpAddDocuments (fst (fst (gather files [] [] [])))
                        (Some (chunk_metadata (snd (gather files [] [] []))))).
Proof. exact (proj2 (gather_aligned files [] [] [] eq_refl)). Qed.

(** [process_documents] replaces the content of the store: with no chunk
    to add it changes nothing; otherwise the store is cleared first, and
    afterwards it holds exactly the new chunks, in order, with one
    metadata object each, the chat history emptied, or, when the chunks
    could not be added, it holds nothing, while the flag, the history and
    the file list still are those of the documents that were lost.  In
    both cases the arrays of the store are parallel. *)
Theorem process_documents_rebuilds_the_store :
  forall (L : FaissLaws F) (uploaded_files : list UploadedFile)
         (s : session) (w : World),
    let all_chunks := fst (fst (gather uploaded_files [] [] [])) in
    let s' := fst (process_documents uploaded_files s w) in
    (all_chunks = [] -> process_documents uploaded_files s w = (s, w)) /\
    (all_chunks <> [] ->
     consistent (vector_store s') /\
     ((texts (vector_store s') = all_chunks /\
       len (metadata (vector_store s')) = len all_chunks /\
       documents_processed s' = true /\
       chat_history s' = [] /\
       processed_files s' = snd (fst (gather uploaded_files [] [] []))) \/
      (texts (vector_store s') = [] /\
       metadata (vector_store s') = [] /\
       documents_processed s' = documents_processed s /\
       chat_history s' = chat_history s /\
       processed_files s' = processed_files s))).
Proof.
  intros L files s w all_chunks s'.
  pose proof (gather_metadata_ok files) as Hl.
  unfold s', all_chunks, App.process_documents in *. clear s' all_chunks.
  destruct (gather files [] [] []) as [[ac pf] infos]. simpl in *.
  split.
  - intros ->. reflexivity.
  - intros Hac. destruct ac as [|c ac]; [contradiction|]. simpl truthy.
    cbv iota.
    pose proof (add_documents_consistent embed_content
                  (clear (vector_store s)) (c :: ac)
                  (Some (chunk_metadata infos)) w Hl
                  (clear_consistent (vector_store s))) as C.
    destruct (VectorStoreExtras.add_documents_cases embed_content
                (clear (vector_store s)) (c :: ac)
                (Some (chunk_metadata infos)) w)
      as [[w' E]|(ix & w' & E)]; rewrite E in *; simpl in *.
    + split; [exact C|]. right. repeat split; reflexivity.
    + split; [exact C|]. left. repeat split; try reflexivity.
      destruct (chunk_metadata infos) as [|m ms]; [discriminate|].
      unfold len. simpl. simpl in Hl. lia.
Qed.

(** The fuel of [chunk_text_default] is enough: with that much fuel or
    more, [chunk_text] at the defaults returns, and returns the same. *)
Lemma chunk_text_default_returns (text : str) (fuel : nat) :
  (S (Z.to_nat (len (clean_text unicode_alnum text))) <= fuel)%nat ->
  chunk_text unicode_alnum fuel text 1000 200
  = Some (chunk_text_default unicode_alnum text).
Proof.
  intros Hf. unfold chunk_text_default.
  set (t := clean_text unicode_alnum text) in *.
  assert (E : forall fuel',
             (S (Z.to_nat (len t)) <= fuel')%nat ->
             chunk_text unicode_alnum fuel' text 1000 200
             = chunk_text unicode_alnum (S (Z.to_nat (len t))) text 1000 200
             /\ chunk_text unicode_alnum fuel' text 1000 200 <> None).
  { intros fuel' Hle. unfold DocumentProcessor.chunk_text. fold t.
    destruct (truthy text); cbn [negb];
      [|split; [reflexivity|discriminate]].
    destruct (Z.leb_spec (len t) 1000);
      [split; [reflexivity|discriminate]|].
    destruct (ChunkerProofs.chunk_loop_returns t 1000 200 ltac:(lia)
                ltac:(change (1000 / 2) with 500; lia)
                (S (Z.to_nat (len t))) 0 (@nil str) ltac:(lia) ltac:(lia)
                ltac:(constructor))
      as (final & chunks & L & _).
    { intros p ch Hp. exfalso. clear -Hp. lia. }
    rewrite L.
    rewrite (ChunkerProofs.chunk_loop_more_fuel t 1000 200 _ fuel' 0 [] _
               Hle L).
    split; [reflexivity|discriminate]. }
  destruct (E fuel Hf) as [E1 E2]. rewrite E1 in *.
  destruct (chunk_text unicode_alnum (S (Z.to_nat (len t))) text 1000 200);
    [reflexivity | contradiction].
Qed.

Lemma chunk_text_default_well_cut (text : str) :
  Forall (fun c => strip c = c /\ len c <= 1000)
         (chunk_text_default unicode_alnum text).
Proof.
  pose proof (ChunkerExtras.chunk_text_well_cut unicode_alnum _ text 1000 200
                _ ltac:(lia) ltac:(change (1000 / 2) with 500; lia)
                (chunk_text_default_returns text _ (Nat.le_refl _))) as W.
  eapply List.Forall_impl; [|exact W]. intros c (A & B & _). auto.
Qed.

Lemma gather_well_cut files :
  forall all_chunks processed infos,
    Forall (fun c => strip c = c /\ len c <= 1000) all_chunks ->
    Forall (fun c => strip c = c /\ len c <= 1000)
           (fst (fst (gather files all_chunks processed infos))).
Proof.
  induction files as [|f files IH]; intros ac pf infos Fa;
    cbn [App.gather]; [exact Fa|].
  destruct (truthy (text_of f)); [|now apply IH].
  apply IH. apply List.Forall_app. split; [exact Fa|].
  apply chunk_text_default_well_cut.
Qed.

(** Every chunk that [process_documents] hands to the store has no
    whitespace at either end and is at most 1000 characters long,
    whatever the uploaded files hold. *)
Theorem stored_chunks_are_trimmed_and_short :
  forall uploaded_files : list UploadedFile,
    Forall (fun c => strip c = c /\ len c <= 1000)
           (fst (fst (gather uploaded_files [] [] []))).
Proof.
  intros files. apply gather_well_cut. constructor.
Qed.

Lemma generate_response_nonempty (gc : str -> M World str) query chunks w :
  fst (generate_response format_2f gc query chunks w) <> [].
Proof.
  unfold generate_response.
  destruct (gc _ w) as [[t|] w']; simpl; [|discriminate].
  destruct t; simpl; discriminate.
Qed.

Lemma user_messages_app (h1 h2 : list message) :
  List.filter (fun m => match role m with user => true | _ => false end)
              (h1 ++ h2)
  = List.filter (fun m => match role m with user => true | _ => false end) h1
    ++ List.filter (fun m => match role m with user => true | _ => false end)
                   h2.
Proof. apply List.filter_app. Qed.

(** A question adds two messages to the history and nothing else: the
    question, and an answer that is not empty.  The answer lists sources
    exactly when the search found chunks, and then between one and three
    of them.  The store is not changed, the count of questions grows by
    one. *)
Theorem ask_adds_question_and_answer :
  forall (prompt : str) (s : session) (w : World),
    let s' := fst (ask prompt s w) in
    let found := fst (search embed_content (vector_store s) prompt 5 w) in
    exists answer : message,
      chat_history s'
      = chat_history s
        ++ [{| role := user; content := prompt; sources := None |}; answer]
      /\ role answer = assistant
      /\ content answer <> []
      /\ (sources answer = None <-> found = [])
      /\ (forall l, sources answer = Some l ->
                    1 <= len l <= 3 /\ len l <= len found)
      /\ vector_store s' = vector_store s
      /\ user_messages s' = user_messages s + 1
      /\ total_messages s' = total_messages s + 2.
Proof.
  intros prompt s w. unfold App.ask. cbv zeta.
  destruct (search embed_content (vector_store s) prompt 5 w)
    as [found w1].
  pose proof (generate_response_nonempty
                (generate_content_opt generate_content) prompt found w1)
    as Ne.
  destruct (generate_response format_2f _ prompt found w1)
    as [response w2].
  simpl in Ne. simpl fst.
  assert (Counts : forall answer,
             role answer = assistant ->
             len (List.filter
                    (fun m => match role m with user => true | _ => false end)
                    ((chat_history s
                      ++ [{| role := user; content := prompt;
                             sources := None |}]) ++ [answer]))
             = user_messages s + 1 /\
             len ((chat_history s
                   ++ [{| role := user; content := prompt;
                          sources := None |}]) ++ [answer])
             = total_messages s + 2).
  { intros answer R. unfold user_messages, total_messages.
    rewrite !user_messages_app, !len_app. simpl. rewrite R.
    unfold len. simpl. lia. }
  destruct found as [|r found']; simpl truthy; cbv iota.
  - eexists. split; [now rewrite <- List.app_assoc|].
    split; [reflexivity|]. split; [exact Ne|].
    split; [tauto|]. split; [discriminate|]. split; [reflexivity|].
    apply Counts. reflexivity.
  - eexists. split; [now rewrite <- List.app_assoc|].
    split; [reflexivity|]. split; [exact Ne|].
    split; [split; discriminate|]. split; [|split; [reflexivity|]].
    + intros l [= <-]. rewrite slice_top by lia.
      unfold len. rewrite List.length_map, List.length_firstn.
      simpl List.length. lia.
    + apply Counts. reflexivity.
Qed.

(** [generate_suggested_questions] changes the list of suggested
    questions and nothing else; the new list has at most five entries;
    and before any document is processed it does nothing, not even a
    call of a service. *)
Theorem suggesting_changes_only_the_suggestions :
  forall (s : session) (w : World),
    let s' := fst (generate_suggested_questions s w) in
    vector_store s' = vector_store s /\
    chat_history s' = chat_history s /\
    documents_processed s' = documents_processed s /\
    processed_files s' = processed_files s /\
    processing_info s' = processing_info s /\
    (suggested_questions s' = suggested_questions s \/
     len (suggested_questions s') <= 5) /\
    (documents_processed s = false ->
     generate_suggested_questions s w = (s, w)).
Proof.
  intros s w. unfold App.generate_suggested_questions.
  assert (Same : forall w' : World,
             vector_store (fst (s, w')) = vector_store s /\
             chat_history (fst (s, w')) = chat_history s /\
             documents_processed (fst (s, w')) = documents_processed s /\
             processed_files (fst (s, w')) = processed_files s /\
             processing_info (fst (s, w')) = processing_info s /\
             (suggested_questions (fst (s, w')) = suggested_questions s \/
              len (suggested_questions (fst (s, w'))) <= 5)).
  { intros w'. simpl. repeat split; auto. }
  destruct (documents_processed s) eqn:D; simpl negb; cbv iota.
  2:{ destruct (Same w) as (A & B & C & E & G & H).
      repeat split; auto. }
  destruct (search embed_content (vector_store s) _ 3 w) as [found w1].
  match goal with
  | |- context [truthy ?c] => destruct (truthy c) eqn:T
  end.
  2:{ destruct (Same w1) as (A & B & C & E & G & H).
      repeat split; auto. discriminate. }
  match goal with
  | |- context [suggest_questions generate_content ?c w1] =>
      pose proof (AssistantProofs.suggestions_length generate_content c w1)
        as Q;
      destruct (suggest_questions generate_content c w1) as [qs w2]
  end.
  simpl in *. repeat split; auto. discriminate.
Qed.

(** When the search gives nothing although the store holds texts, the
    questions are asked about the first stored text. *)
Theorem suggestions_fall_back_on_first_text :
  forall (s : session) (w : World) (t : str) (rest : list str),
    documents_processed s = true ->
    fst (search embed_content (vector_store s) (lit "summary main topics") 3 w)
    = [] ->
    texts (vector_store s) = t :: rest ->
    suggested_questions (fst (generate_suggested_questions s w))
    = fst (suggest_questions generate_content [(t, 1%Q, ∅)]
             (snd (search embed_content (vector_store s)
                     (lit "summary main topics") 3 w))).
Proof.
  intros s w t rest Hd Hs Ht. unfold App.generate_suggested_questions.
  rewrite Hd. simpl negb. cbv iota.
  destruct (search embed_content (vector_store s) _ 3 w) as [found w1].
  simpl in Hs. subst found. cbn [snd]. rewrite Ht. simpl truthy. simpl negb.
  cbv iota. simpl andb. cbv iota.
  rewrite slice_top by lia.
  change (firstn (Z.to_nat 3) (t :: rest)) with (t :: firstn 2 rest).
  cbn [mock_chunks truthy].
  match goal with
  | |- context [suggest_questions generate_content (?c :: ?r) w1] =>
      change (suggest_questions generate_content (c :: r) w1)
        with (suggest_questions generate_content [(t, 1%Q, ∅)] w1)
  end.
  destruct (suggest_questions generate_content [(t, 1%Q, ∅)] w1)
    as [qs w2]. reflexivity.
Qed.

End Session.

(** ** On the demo application *)

Import FlatL2 FlatL2Proofs Demo DemoApp.

(** The two demo files processed in a new session. *)
Lemma process_documents_rebuilds_the_store_witness :
  fst (fst (App.gather (fun _ => false) reader document decode_ascii
              ascii_lower [report_pdf; notes_txt] [] [] [])) <> [] /\
  consistent (vector_store session1) /\
  texts (vector_store session1)
  = fst (fst (App.gather (fun _ => false) reader document decode_ascii
                ascii_lower [report_pdf; notes_txt] [] [] [])) /\
  documents_processed session1 = true.
Proof.
  assert (N : fst (fst (App.gather (fun _ => false) reader document
                          decode_ascii ascii_lower [report_pdf; notes_txt]
                          [] [] [])) <> []).
  { vm_compute. discriminate. }
  split; [exact N|].
  destruct (proj2 (process_documents_rebuilds_the_store (F := flat_faiss)
                     (fun _ => false) reader document decode_ascii
                     ascii_lower service flat_laws [report_pdf; notes_txt]
                     session0 tt) N) as [C Cases].
  split; [exact C|].
  split; [vm_compute; reflexivity | vm_compute; reflexivity].
Defined.

(** The demo session, asked for suggestions through a service that
    raises on queries. *)
Lemma suggestions_fall_back_on_first_text_witness :
  exists t rest,
    texts (vector_store session1) = t :: rest /\
    suggested_questions
      (fst (App.generate_suggested_questions (F := flat_faiss)
              service_without_queries model session1 tt))
    = fst (suggest_questions model [(t, 1%Q, ∅)] tt).
Proof.
  eexists. eexists. split; [vm_compute; reflexivity|].
  eapply (suggestions_fall_back_on_first_text (F := flat_faiss)
            service_without_queries model session1 tt).
  - vm_compute. reflexivity.
  - vm_compute. reflexivity.
  - vm_compute. reflexivity.
Defined.

End AppProofs.
